(** * GarageClimate: thermo-hygrostat control loop

    A shallow embedding of [GarageClimate/GarageClimate.ino] and the
    properties of its two stateful parts: the hysteresis climate decision
    ([processClimate]) and the keypad state machine ([processKeys]).

    The sketch keeps its data in globals ([state], [config]) and in
    function-local statics ([lastKey], [lastTime], [lastReadTime]); here
    they are the fields of one record, [World], threaded through a small
    state-and-trace monad.  Calls to the hardware (keypad ADC, clock,
    sensors, display, relays, EEPROM) are recorded as [Event]s in the order
    they are made; the values the hardware answers with come from an
    environment [Env]. *)

From Stdlib Require Import ZArith List Bool Lia String Ascii.
From Stdlib Require Import Floats.SpecFloat.
Import ListNotations.
Open Scope Z_scope.

(** ** Machine arithmetic of the target (8-bit AVR) *)

(** [byte] is [uint8_t]: a store into a byte keeps the low eight bits. *)
Definition to_byte (z : Z) : Z := z mod 256.

(** [millis()] returns an [unsigned long], 32 bits wide. *)
Definition to_ulong (z : Z) : Z := z mod 2 ^ 32.

(** [long] is 32 bits, two's complement; converting an [unsigned long] to it
    and subtracting two of them wrap around. *)
Definition to_long (z : Z) : Z := (z + 2 ^ 31) mod 2 ^ 32 - 2 ^ 31.

Definition long_sub (a b : Z) : Z := to_long (a - b).

(** [float] is IEEE 754 binary32.  Comparisons are those of the standard
    ([SFltb], [SFleb]): every comparison with a NaN is false. *)
Definition float : Set := spec_float.

Definition float_prec : Z := 24.
Definition float_emax : Z := 128.

(** Conversion of an integer operand to [float] in a mixed comparison. *)
Definition float_of_int (z : Z) : float :=
  binary_normalize float_prec float_emax z 0 false.

Definition float_nan : float := S754_nan.

(** ** Pins and other config *)

Definition RELAY_TEMP_PIN : Z := 3.
Definition RELAY_HUMID_PIN : Z := 2.
Definition KEY_TIMEOUT : Z := 30000.
Definition SENSORS_READ_PERIOD : Z := 5000.

Definition LOW : Z := 0.
Definition HIGH : Z := 1.

(** ** Definitions *)

Inductive Key : Set := right | up | down | left | select | none.

Inductive Mode : Set :=
  idle | setLowTemp | setHighTemp | setLowHumid | setHighHumid.

(** The enumerators' integer values, as C assigns them. *)
Definition Key_to_int (k : Key) : Z :=
  match k with
  | right => 0 | up => 1 | down => 2 | left => 3 | select => 4 | none => 5
  end.

Definition Mode_to_int (m : Mode) : Z :=
  match m with
  | idle => 0 | setLowTemp => 1 | setHighTemp => 2
  | setLowHumid => 3 | setHighHumid => 4
  end.

(** The cast [Mode(n)].  The sketch only applies it to [state.mode + 1]
    with [state.mode] different from [setHighHumid], so 1..4; any other
    integer is outside the enumeration and is sent to [idle] here. *)
Definition Mode_of_int (n : Z) : Mode :=
  match n with
  | 1 => setLowTemp | 2 => setHighTemp | 3 => setLowHumid | 4 => setHighHumid
  | _ => idle
  end.

Definition Key_eqb (a b : Key) : bool := Key_to_int a =? Key_to_int b.
Definition Mode_eqb (a b : Mode) : bool := Mode_to_int a =? Mode_to_int b.

Record Config : Set := mkConfig {
  lowTemp : Z;
  highTemp : Z;
  lowHumid : Z;
  highHumid : Z
}.

Record State : Set := mkState {
  mode : Mode;
  temp : float;
  humid : float;
  outdoorTemp : float;
  tempOn : bool;
  humidOn : bool
}.

(** The [byte *parameter] of [processKeys] and the [byte &parameter] of
    [loopSetup] always point into [config]; [NULL] is [None]. *)
Inductive Param : Set := p_lowTemp | p_highTemp | p_lowHumid | p_highHumid.

Definition deref (p : Param) (c : Config) : Z :=
  match p with
  | p_lowTemp => lowTemp c
  | p_highTemp => highTemp c
  | p_lowHumid => lowHumid c
  | p_highHumid => highHumid c
  end.

Definition assign (p : Param) (v : Z) (c : Config) : Config :=
  match p with
  | p_lowTemp => mkConfig v (highTemp c) (lowHumid c) (highHumid c)
  | p_highTemp => mkConfig (lowTemp c) v (lowHumid c) (highHumid c)
  | p_lowHumid => mkConfig (lowTemp c) (highTemp c) v (highHumid c)
  | p_highHumid => mkConfig (lowTemp c) (highTemp c) (lowHumid c) v
  end.

(** The voltage bands of [readKey], applied to the value [analogRead(0)]
    returned. *)
Definition Key_of_analog (analogKey : Z) : Key :=
  if analogKey <? 60 then right
  else if analogKey <? 200 then up
  else if analogKey <? 400 then down
  else if analogKey <? 600 then left
  else if analogKey <? 800 then select
  else none.

(** Globals and function statics of the sketch, and the number of values
    read from the hardware so far. *)
Record World : Type := mkWorld {
  state : State;
  config : Config;
  lastKey : Key;          (* static in processKeys *)
  lastTime : Z;           (* static in processKeys *)
  lastReadTime : Z;       (* static in processSensors *)
  io : nat
}.

(** What the hardware answers: the [n]-th value read, per device. *)
Record Env : Type := mkEnv {
  analog : nat -> Z;           (* analogRead(0) *)
  clock : nat -> Z;            (* millis() *)
  dht_temperature : nat -> float;
  dht_humidity : nat -> float;
  ds_tempC : nat -> float
}.

(** Calls that leave the processor. *)
Inductive Event : Type :=
| EvAnalogRead (v : Z)
| EvMillis (v : Z)
| EvReadTemperature (v : float)
| EvReadHumidity (v : float)
| EvRequestTemperatures
| EvGetTempC (v : float)
| EvDisplayIdle (shown : State)
| EvDisplaySetup (parameterName units : string) (parameter : Z)
| EvWriteConfig (c : Config)
| EvDigitalWrite (pin level : Z).

(** ** The state-and-trace monad *)

Record Result (A : Type) : Type := mkResult {
  value : A;
  world : World;
  events : list Event
}.
Arguments mkResult {A} _ _ _.
Arguments value {A} _.
Arguments world {A} _.
Arguments events {A} _.

Definition M (A : Type) : Type := World -> Result A.

Definition ret {A} (a : A) : M A := fun w => mkResult a w [].

Definition bind {A B} (m : M A) (f : A -> M B) : M B :=
  fun w =>
    let r := m w in
    let r' := f (value r) (world r) in
    mkResult (value r') (world r') (events r ++ events r').

Declare Scope prog_scope.
Delimit Scope prog_scope with prog.
Notation "x <- m ;; k" := (bind m (fun x => k))
  (at level 61, m at next level, right associativity) : prog_scope.
Notation "m ;; k" := (bind m (fun _ => k))
  (at level 61, right associativity) : prog_scope.
Open Scope prog_scope.

Definition gets {A} (f : World -> A) : M A := fun w => mkResult (f w) w [].
Definition modify (f : World -> World) : M unit := fun w => mkResult tt (f w) [].
Definition emit (e : Event) : M unit := fun w => mkResult tt w [e].

(** Field updates. *)
Definition with_state (f : State -> State) (w : World) : World :=
  mkWorld (f (state w)) (config w) (lastKey w) (lastTime w) (lastReadTime w) (io w).
Definition with_config (f : Config -> Config) (w : World) : World :=
  mkWorld (state w) (f (config w)) (lastKey w) (lastTime w) (lastReadTime w) (io w).
Definition set_lastKey (k : Key) (w : World) : World :=
  mkWorld (state w) (config w) k (lastTime w) (lastReadTime w) (io w).
Definition set_lastTime (t : Z) (w : World) : World :=
  mkWorld (state w) (config w) (lastKey w) t (lastReadTime w) (io w).
Definition set_lastReadTime (t : Z) (w : World) : World :=
  mkWorld (state w) (config w) (lastKey w) (lastTime w) t (io w).
Definition next_io (w : World) : World :=
  mkWorld (state w) (config w) (lastKey w) (lastTime w) (lastReadTime w) (S (io w)).

Definition set_mode (m : Mode) (s : State) : State :=
  mkState m (temp s) (humid s) (outdoorTemp s) (tempOn s) (humidOn s).
Definition set_temp (x : float) (s : State) : State :=
  mkState (mode s) x (humid s) (outdoorTemp s) (tempOn s) (humidOn s).
Definition set_humid (x : float) (s : State) : State :=
  mkState (mode s) (temp s) x (outdoorTemp s) (tempOn s) (humidOn s).
Definition set_outdoorTemp (x : float) (s : State) : State :=
  mkState (mode s) (temp s) (humid s) x (tempOn s) (humidOn s).
Definition set_tempOn (b : bool) (s : State) : State :=
  mkState (mode s) (temp s) (humid s) (outdoorTemp s) b (humidOn s).
Definition set_humidOn (b : bool) (s : State) : State :=
  mkState (mode s) (temp s) (humid s) (outdoorTemp s) (tempOn s) b.

(** Reading a value from a device: take the environment's next answer and
    log the call. *)
Definition input {A} (src : nat -> A) (ev : A -> Event) : M A :=
  fun w => mkResult (src (io w)) (next_io w) [ev (src (io w))].

(** ** Functions *)

Section Sketch.

Variable env : Env.

(** *** Hardware calls *)

Definition analogRead0 : M Z := input (analog env) EvAnalogRead.

(** [millis()], as an [unsigned long]. *)
Definition millis : M Z :=
  input (fun n => to_ulong (clock env n)) EvMillis.

Definition dht_readTemperature : M float :=
  input (dht_temperature env) EvReadTemperature.
Definition dht_readHumidity : M float :=
  input (dht_humidity env) EvReadHumidity.
Definition dsSensors_requestTemperatures : M unit := emit EvRequestTemperatures.
Definition dsSensors_getTempC : M float := input (ds_tempC env) EvGetTempC.

Definition digitalWrite (pin level : Z) : M unit := emit (EvDigitalWrite pin level).

(** *** Config storage *)

Definition resetDefaultConfig : M unit :=
  modify (with_config (fun _ => mkConfig 4 6 60 70)).

(** The EEPROM read is commented out in the sketch: the defaults are
    always taken. *)
Definition restoreConfig : M unit := resetDefaultConfig.

(** The EEPROM write is commented out in the sketch; the call itself is
    what the trace records. *)
Definition writeConfig : M unit :=
  c <- gets config ;; emit (EvWriteConfig c).

(** *** Keypad *)

Definition readKey : M Key :=
  analogKey <- analogRead0 ;;
  ret (Key_of_analog analogKey).

Definition toggleModeToIdle : M unit :=
  modify (with_state (set_mode idle)) ;;
  writeConfig.

Definition toggleMode : M unit :=
  m <- gets (fun w => mode (state w)) ;;
  if Mode_eqb m setHighHumid then toggleModeToIdle
  else modify (with_state (set_mode (Mode_of_int (Mode_to_int m + 1)))).

Definition processKeys (parameter : option Param) (step : Z) : M unit :=
  key <- readKey ;;
  now <- millis ;;
  let now := to_long now in
  lastKey0 <- gets lastKey ;;
  if Key_eqb key lastKey0 then
    (* Nothing changed *)
    now' <- millis ;;
    let now' := to_long now' in
    m <- gets (fun w => mode (state w)) ;;
    lastTime0 <- gets lastTime ;;
    if negb (Mode_eqb m idle) && (0 <? lastTime0)
       && (KEY_TIMEOUT <? long_sub now' lastTime0)
    then toggleModeToIdle
    else ret tt
  else
    modify (set_lastKey key) ;;
    modify (set_lastTime now) ;;
    if Key_eqb key select then toggleMode
    else
      m <- gets (fun w => mode (state w)) ;;
      if Mode_eqb m idle then ret tt
      else
        (* Other modes are editing config *)
        match parameter with
        | None => ret tt
        | Some p =>
            if Key_eqb key up then
              modify (with_config (fun c => assign p (to_byte (deref p c + step)) c))
            else if Key_eqb key down then
              modify (with_config (fun c => assign p (to_byte (deref p c - step)) c))
            else ret tt
        end.

(** *** Display

    The text formatting is not modelled: an event records what is shown. *)

Definition displayIdle : M unit :=
  s <- gets state ;; emit (EvDisplayIdle s).

Definition displaySetup (parameterName units : string) (parameter : Z) : M unit :=
  emit (EvDisplaySetup parameterName units parameter).

Definition processIU : M unit :=
  displayIdle ;;
  processKeys None 0.

(** *** Sensors *)

Definition processSensors : M unit :=
  lastReadTime0 <- gets lastReadTime ;;
  now <- millis ;;
  let now := to_long now in
  if SENSORS_READ_PERIOD <? long_sub now lastReadTime0 then
    modify (set_lastReadTime now) ;;
    t <- dht_readTemperature ;;
    modify (with_state (set_temp t)) ;;
    processIU ;;
    h <- dht_readHumidity ;;
    modify (with_state (set_humid h)) ;;
    processIU ;;
    dsSensors_requestTemperatures ;;
    processIU ;;
    o <- dsSensors_getTempC ;;
    modify (with_state (set_outdoorTemp o)) ;;
    processIU
  else ret tt.

(** *** Climate *)

Definition isValidTemp (t : float) : bool :=
  SFltb (float_of_int (-90)) t && SFltb t (float_of_int 90).

Definition isValidHumid (h : float) : bool :=
  SFleb (float_of_int 10) h && SFleb h (float_of_int 100).

Definition processClimate : M unit :=
  s <- gets state ;;
  c <- gets config ;;
  (* Safety fallback to turn everything off in case of no data or reading error *)
  if negb (isValidTemp (temp s))
     || negb (isValidHumid (humid s))
     || negb (isValidTemp (outdoorTemp s))
  then
    modify (with_state (set_tempOn false)) ;;
    modify (with_state (set_humidOn false))
  else
    (if SFleb (temp s) (float_of_int (lowTemp c)) then
       modify (with_state (set_tempOn true))
     else if SFleb (float_of_int (highTemp c)) (temp s) then
       modify (with_state (set_tempOn false))
     else ret tt) ;;
    (if SFltb (outdoorTemp s) (temp s) then
       modify (with_state (set_humidOn false))
     else if SFleb (humid s) (float_of_int (lowHumid c)) then
       modify (with_state (set_humidOn false))
     else if SFleb (float_of_int (highHumid c)) (humid s) then
       modify (with_state (set_humidOn true))
     else ret tt).

(** *** Relays *)

Definition boolToDigital (val : bool) : Z := if val then LOW else HIGH.

Definition processRelays : M unit :=
  s <- gets state ;;
  digitalWrite RELAY_TEMP_PIN (boolToDigital (tempOn s)) ;;
  s' <- gets state ;;
  digitalWrite RELAY_HUMID_PIN (boolToDigital (humidOn s')).

(** *** Main loop *)

Definition loopIdle : M unit :=
  processIU ;;
  processSensors ;;
  processClimate ;;
  processRelays.

Definition loopSetup (parameterName units : string) (parameter : Param) (step : Z)
  : M unit :=
  processKeys (Some parameter) step ;;
  v <- gets (fun w => deref parameter (config w)) ;;
  displaySetup parameterName units v.

Definition degC : string := String (ascii_of_nat 223) "C".

Definition loop : M unit :=
  m <- gets (fun w => mode (state w)) ;;
  match m with
  | idle => loopIdle
  | setLowTemp => loopSetup "low temp" degC p_lowTemp 1
  | setHighTemp => loopSetup "high temp" degC p_highTemp 1
  | setLowHumid => loopSetup "low humid" "%" p_lowHumid 5
  | setHighHumid => loopSetup "high humid" "%" p_highHumid 5
  end.

(** [setup()], without its LCD banner and pin directions. *)
Definition setup : M unit :=
  processRelays ;; (* Make sure relays are off at startup *)
  modify (with_state (set_mode idle)) ;;
  restoreConfig.

(** A run of consecutive [processKeys] calls, each with the arguments its
    caller passes. *)
Fixpoint ticks (args : list (option Param * Z)) : M unit :=
  match args with
  | [] => ret tt
  | (parameter, step) :: rest => processKeys parameter step ;; ticks rest
  end.

End Sketch.

(** Globals and statics as the C runtime zero-initialises them, except
    [lastKey], whose initialiser is [none]. *)
Definition boot : World :=
  mkWorld (mkState idle (S754_zero false) (S754_zero false) (S754_zero false)
             false false)
          (mkConfig 0 0 0 0) none 0 0 0%nat.

(** ** Observations used in the statements *)

(** The key the next [readKey] call returns. *)
Definition key_read (env : Env) (w : World) : Key := value (readKey env w).

(** The [long] a [millis()] call gets when it is the [n]-th hardware read. *)
Definition clock_read (env : Env) (n : nat) : Z := to_long (to_ulong (clock env n)).

(** Number of [writeConfig] calls in a trace. *)
Fixpoint count_saves (evs : list Event) : nat :=
  match evs with
  | [] => 0%nat
  | EvWriteConfig _ :: rest => S (count_saves rest)
  | _ :: rest => count_saves rest
  end.

(** The keys decoded from the keypad reads of a trace, in order. *)
Fixpoint keys_read (evs : list Event) : list Key :=
  match evs with
  | [] => []
  | EvAnalogRead v :: rest => Key_of_analog v :: keys_read rest
  | _ :: rest => keys_read rest
  end.

(** The ranges of the validity gate, as intervals over [float]. *)
Definition strictly_between (lo hi : Z) (x : float) : Prop :=
  SFltb (float_of_int lo) x = true /\ SFltb x (float_of_int hi) = true.

Definition within (lo hi : Z) (x : float) : Prop :=
  SFleb (float_of_int lo) x = true /\ SFleb x (float_of_int hi) = true.

(** All three readings pass the validity gate. *)
Definition valid_readings (s : State) : bool :=
  isValidTemp (temp s) && isValidHumid (humid s) && isValidTemp (outdoorTemp s).

(** The time [processKeys] reads in its nothing-changed branch: the call's
    third hardware read (after the key and the first [millis()]). *)
Definition held_key_clock (env : Env) (w : World) : Z :=
  clock_read env (S (S (io w))).

(** The time [processKeys] stores as [lastTime] on a key change: the call's
    second hardware read. *)
Definition key_change_clock (env : Env) (w : World) : Z :=
  clock_read env (S (io w)).

(** The idle-timeout is due on a tick: an edit mode, a recorded key change,
    and more than [KEY_TIMEOUT] since. *)
Definition idle_timeout_due (env : Env) (w : World) : Prop :=
  mode (state w) <> idle /\ 0 < lastTime w /\
  KEY_TIMEOUT < long_sub (held_key_clock env w) (lastTime w).

(** The mode cycle of the Select key. *)
Definition next_mode (m : Mode) : Mode :=
  match m with
  | idle => setLowTemp
  | setLowTemp => setHighTemp
  | setHighTemp => setLowHumid
  | setLowHumid => setHighHumid
  | setHighHumid => idle
  end.

(** [n] steps along the cycle from [m]: the mode reached and the number of
    [setHighHumid]-to-[idle] steps taken. *)
Fixpoint select_steps (n : nat) (m : Mode) : Mode * nat :=
  match n with
  | O => (m, 0%nat)
  | S n' =>
      let (m', saves) := select_steps n' (next_mode m) in
      (m', ((if Mode_eqb m setHighHumid then 1 else 0) + saves)%nat)
  end.

(** Number of ticks of a run on which the key changes to [select]. *)
Fixpoint select_edges (env : Env) (args : list (option Param * Z)) (w : World)
  : nat :=
  match args with
  | [] => 0%nat
  | (parameter, step) :: rest =>
      ((if negb (Key_eqb (key_read env w) (lastKey w))
           && Key_eqb (key_read env w) select then 1 else 0)
       + select_edges env rest (world (processKeys env parameter step w)))%nat
  end.

(** No tick of a run is a held-key tick on which the idle-timeout is due. *)
Fixpoint timeout_free (env : Env) (args : list (option Param * Z)) (w : World)
  : Prop :=
  match args with
  | [] => True
  | (parameter, step) :: rest =>
      ~ (key_read env w = lastKey w /\ idle_timeout_due env w) /\
      timeout_free env rest (world (processKeys env parameter step w))
  end.

(** The threshold [loop] passes to the input machine in each edit mode, and
    its step. *)
Definition edit_target (m : Mode) : option (Param * Z) :=
  match m with
  | idle => None
  | setLowTemp => Some (p_lowTemp, 1)
  | setHighTemp => Some (p_highTemp, 1)
  | setLowHumid => Some (p_lowHumid, 5)
  | setHighHumid => Some (p_highHumid, 5)
  end.

(** The steps of a sensor sample as they show in a trace: the device reads
    and the idle-screen refreshes, everything else dropped. *)
Inductive SampleStep : Set :=
  ReadTemperature | ReadHumidity | RequestTemperatures | GetTempC | Refresh.

Fixpoint sample_steps (evs : list Event) : list SampleStep :=
  match evs with
  | [] => []
  | EvReadTemperature _ :: rest => ReadTemperature :: sample_steps rest
  | EvReadHumidity _ :: rest => ReadHumidity :: sample_steps rest
  | EvRequestTemperatures :: rest => RequestTemperatures :: sample_steps rest
  | EvGetTempC _ :: rest => GetTempC :: sample_steps rest
  | EvDisplayIdle _ :: rest => Refresh :: sample_steps rest
  | _ :: rest => sample_steps rest
  end.

(** The world [loopIdle] is in when it calls [processSensors], and the
    elapsed time that call computes. *)
Definition before_sensors (env : Env) (w : World) : World :=
  world (processIU env w).

Definition since_last_sample (env : Env) (w : World) : Z :=
  long_sub (clock_read env (io (before_sensors env w))) (lastReadTime w).

(** ** Concrete inputs *)

(** A keypad held at one ADC value and a clock standing at one time. *)
Definition steady_env (adc time : Z) (reading : float) : Env :=
  mkEnv (fun _ => adc) (fun _ => time)
        (fun _ => reading) (fun _ => reading) (fun _ => reading).

Definition default_config : Config := mkConfig 4 6 60 70.

(** An idle world with the given readings and actuator state. *)
Definition climate_world (c : Config) (t h o : Z) (heater fan : bool) : World :=
  mkWorld (mkState idle (float_of_int t) (float_of_int h) (float_of_int o)
             heater fan)
          c none 0 0 0%nat.

(** Humidity thresholds crossed (low 70, high 60), indoors 20 degrees and
    65 percent, outdoors 25 degrees, heater and fan on. *)
Definition crossed_humid_world : World :=
  climate_world (mkConfig 4 6 70 60) 20 65 25 true true.

(** A world in mode [m] whose last key change was to [k] at time [t]. *)
Definition keypad_world (m : Mode) (k : Key) (t : Z) : World :=
  mkWorld (mkState m (float_of_int 5) (float_of_int 50) (float_of_int 5)
             false false)
          default_config k t 0 0%nat.

(** A keypad pressed and released: Select (ADC 700) on every fourth read,
    released (ADC 1023) otherwise; each changed-key tick takes two reads. *)
Definition tapping_env : Env :=
  mkEnv (fun n => if (Nat.modulo n 4 =? 0)%nat then 700 else 1023)
        (fun n => Z.of_nat n)
        (fun _ => float_of_int 5) (fun _ => float_of_int 50)
        (fun _ => float_of_int 5).

(** Five taps on Select from power-up, with the arguments [loop] passes in
    the mode each tick starts in. *)
Definition five_taps : list (option Param * Z) :=
  [(None, 0); (Some p_lowTemp, 1); (Some p_lowTemp, 1); (Some p_highTemp, 1);
   (Some p_highTemp, 1); (Some p_lowHumid, 5); (Some p_lowHumid, 5);
   (Some p_highHumid, 5); (Some p_highHumid, 5)].

(** The world [setup] leaves after power-up. *)
Definition after_setup : World := world (setup boot).

(** ** Further observations *)

(** The relay pin writes of a trace, in order, as (pin, level). *)
Fixpoint relay_writes (evs : list Event) : list (Z * Z) :=
  match evs with
  | [] => []
  | EvDigitalWrite pin level :: rest => (pin, level) :: relay_writes rest
  | _ :: rest => relay_writes rest
  end.

(** The edit-screen refreshes of a trace: the values shown, in order. *)
Fixpoint setup_screens (evs : list Event) : list Z :=
  match evs with
  | [] => []
  | EvDisplaySetup _ _ v :: rest => v :: setup_screens rest
  | _ :: rest => setup_screens rest
  end.

(** Every threshold fits the [byte] it is stored in. *)
Definition config_in_range (c : Config) : Prop :=
  forall p : Param, 0 <= deref p c < 256.

(** [n] iterations of [loop], as the Arduino core runs it after [setup]. *)
Fixpoint loops (env : Env) (n : nat) : M unit :=
  match n with
  | O => ret tt
  | S n' => loop env ;; loops env n'
  end.


(** A keypad going from Up (ADC 100) to Down (ADC 300): the first tick's
    key read is the first hardware read, the second tick's the third. *)
Definition up_then_down_env : Env :=
  mkEnv (fun n => if (n <? 2)%nat then 100 else 300)
        (fun n => 2000 + Z.of_nat n)
        (fun _ => float_of_int 5) (fun _ => float_of_int 50)
        (fun _ => float_of_int 5).

(** The steps of an idle-loop iteration as they show in a trace: the
    sample steps above and, between them, the keypad polls. *)
Inductive IdleStep : Set :=
| Step (s : SampleStep)
| KeyPoll.

Fixpoint idle_steps (evs : list Event) : list IdleStep :=
  match evs with
  | [] => []
  | EvAnalogRead _ :: rest => KeyPoll :: idle_steps rest
  | EvReadTemperature _ :: rest => Step ReadTemperature :: idle_steps rest
  | EvReadHumidity _ :: rest => Step ReadHumidity :: idle_steps rest
  | EvRequestTemperatures :: rest => Step RequestTemperatures :: idle_steps rest
  | EvGetTempC _ :: rest => Step GetTempC :: idle_steps rest
  | EvDisplayIdle _ :: rest => Step Refresh :: idle_steps rest
  | _ :: rest => idle_steps rest
  end.

(** A keypad tapped on Select five times with a pause after the first tap:
    Select (ADC 700) on hardware reads 0, 7, 11, 15 and 19, released (ADC
    1023) otherwise; the clock stands near 1 s for the first four reads and
    near 40 s from then on. *)
Definition pausing_env : Env :=
  mkEnv (fun n => if (n =? 0)%nat || (n =? 7)%nat || (n =? 11)%nat
                     || (n =? 15)%nat || (n =? 19)%nat
                  then 700 else 1023)
        (fun n => if (n <? 4)%nat then 1000 + Z.of_nat n else 40000 + Z.of_nat n)
        (fun _ => float_of_int 5) (fun _ => float_of_int 50)
        (fun _ => float_of_int 5).

(** The ten ticks of that run, with the arguments [loop] and [processIU]
    pass in the mode each tick starts in: tap, release, a held tick 39 s
    later, then four more taps with the releases between them. *)
Definition paused_taps : list (option Param * Z) :=
  [(None, 0); (Some p_lowTemp, 1); (Some p_lowTemp, 1);
   (None, 0); (Some p_lowTemp, 1); (Some p_lowTemp, 1); (Some p_highTemp, 1);
   (Some p_highTemp, 1); (Some p_lowHumid, 5); (Some p_lowHumid, 5)].

(** ** Facts about the arithmetic *)

Lemma Key_eqb_eq (a b : Key) : Key_eqb a b = true <-> a = b.
Proof. destruct a, b; cbv; split; congruence. Qed.

Lemma Key_eqb_neq (a b : Key) : Key_eqb a b = false <-> a <> b.
Proof. destruct a, b; cbv; split; congruence. Qed.

Lemma Mode_eqb_eq (a b : Mode) : Mode_eqb a b = true <-> a = b.
Proof. destruct a, b; cbv; split; congruence. Qed.

Lemma Mode_eqb_neq (a b : Mode) : Mode_eqb a b = false <-> a <> b.
Proof. destruct a, b; cbv; split; congruence. Qed.

(** Swapping the operands of a float comparison mirrors its outcome. *)
Lemma SFcompare_swap (x y : float) (c : comparison) :
  SFcompare x y = Some c -> SFcompare y x = Some (CompOpp c).
Proof.
  destruct x as [sx|sx| |sx mx ex], y as [sy|sy| |sy my ey]; simpl;
    try discriminate;
    try (destruct sx); try (destruct sy);
    intros H; inversion H; subst; clear H; try reflexivity.
  - rewrite (Z.compare_antisym ex ey).
    destruct (ex ?= ey); simpl; try reflexivity.
    rewrite (Pos.compare_cont_antisym mx my Eq). simpl.
    now destruct (Pos.compare_cont Eq my mx).
  - rewrite (Z.compare_antisym ex ey).
    destruct (ex ?= ey); simpl; try reflexivity.
    rewrite (Pos.compare_cont_antisym mx my Eq). simpl.
    now destruct (Pos.compare_cont Eq my mx).
Qed.

Lemma SFltb_SFleb_false (x y : float) : SFltb x y = true -> SFleb y x = false.
Proof.
  unfold SFltb, SFleb. destruct (SFcompare x y) as [[ | | ]|] eqn:E; try discriminate.
  intros _. now rewrite (SFcompare_swap _ _ _ E).
Qed.

Lemma SFeqb_SFleb (x y : float) : SFeqb x y = true -> SFleb x y = true.
Proof.
  unfold SFeqb, SFleb. now destruct (SFcompare x y) as [[ | | ]|].
Qed.

Lemma SFeqb_sym (x y : float) : SFeqb x y = true -> SFeqb y x = true.
Proof.
  unfold SFeqb. destruct (SFcompare x y) as [[ | | ]|] eqn:E; try discriminate.
  intros _. now rewrite (SFcompare_swap _ _ _ E).
Qed.

Lemma isValidTemp_iff (t : float) :
  isValidTemp t = true <-> strictly_between (-90) 90 t.
Proof. unfold isValidTemp, strictly_between. apply andb_true_iff. Qed.

Lemma isValidHumid_iff (h : float) :
  isValidHumid h = true <-> within 10 100 h.
Proof. unfold isValidHumid, within. apply andb_true_iff. Qed.

(** ** The climate decision *)

(** Unfolds one run of a straight-line procedure. *)
Ltac run_monad :=
  cbv [bind gets modify ret emit input];
  cbn [value world events state config lastKey lastTime lastReadTime io
       with_state with_config set_lastKey set_lastTime set_lastReadTime next_io
       mode temp humid outdoorTemp tempOn humidOn
       set_mode set_temp set_humid set_outdoorTemp set_tempOn set_humidOn].

(** [processClimate] in closed form: the state it leaves, as a function of
    the gate and of the four comparisons. *)
Lemma processClimate_state (w : World) :
  let s := state w in
  let c := config w in
  state (world (processClimate w)) =
    if valid_readings s then
      mkState (mode s) (temp s) (humid s) (outdoorTemp s)
        (if SFleb (temp s) (float_of_int (lowTemp c)) then true
         else if SFleb (float_of_int (highTemp c)) (temp s) then false
         else tempOn s)
        (if SFltb (outdoorTemp s) (temp s) then false
         else if SFleb (humid s) (float_of_int (lowHumid c)) then false
         else if SFleb (float_of_int (highHumid c)) (humid s) then true
         else humidOn s)
    else mkState (mode s) (temp s) (humid s) (outdoorTemp s) false false.
Proof.
  destruct w as [[m t h o hon fon] c lk lt lrt n].
  unfold processClimate, valid_readings. run_monad.
  destruct (isValidTemp t), (isValidHumid h), (isValidTemp o); cbn [negb orb andb];
    run_monad; try reflexivity.
  destruct (SFleb t (float_of_int (lowTemp c))),
           (SFleb (float_of_int (highTemp c)) t),
           (SFltb o t),
           (SFleb h (float_of_int (lowHumid c))),
           (SFleb (float_of_int (highHumid c)) h); reflexivity.
Qed.

(** C1. Safety fallback: when the temperature is not strictly between -90
    and 90, or the humidity is not within [10, 100], or the outdoor
    temperature is not strictly between -90 and 90, [processClimate] leaves
    both actuator flags false, whatever the config and the previous flags. *)
Theorem processClimate_safety_fallback (w : World) :
  ~ strictly_between (-90) 90 (temp (state w)) \/
  ~ within 10 100 (humid (state w)) \/
  ~ strictly_between (-90) 90 (outdoorTemp (state w)) ->
  tempOn (state (world (processClimate w))) = false /\
  humidOn (state (world (processClimate w))) = false.
Proof.
  intros H. rewrite processClimate_state. cbv zeta.
  assert (G : valid_readings (state w) = false).
  { unfold valid_readings.
    destruct (isValidTemp (temp (state w))) eqn:Et;
      destruct (isValidHumid (humid (state w))) eqn:Eh;
      destruct (isValidTemp (outdoorTemp (state w))) eqn:Eo; try reflexivity.
    apply isValidTemp_iff in Et, Eo. apply isValidHumid_iff in Eh. tauto. }
  rewrite G. split; reflexivity.
Qed.

(** A failed DHT read (NaN) with the heater and the fan on. *)
Lemma processClimate_safety_fallback_witness :
  (~ strictly_between (-90) 90 (temp (state
        (mkWorld (mkState idle float_nan (float_of_int 50) (float_of_int 5)
                    true true) default_config none 0 0 0%nat))) \/
   ~ within 10 100 (float_of_int 50) \/
   ~ strictly_between (-90) 90 (float_of_int 5)) /\
  tempOn (state (world (processClimate
        (mkWorld (mkState idle float_nan (float_of_int 50) (float_of_int 5)
                    true true) default_config none 0 0 0%nat)))) = false.
Proof.
  assert (H : ~ strictly_between (-90) 90 float_nan).
  { intros [A _]. vm_compute in A. discriminate A. }
  split.
  - left. exact H.
  - apply (processClimate_safety_fallback
             (mkWorld (mkState idle float_nan (float_of_int 50) (float_of_int 5)
                         true true) default_config none 0 0 0%nat)).
    left. exact H.
Defined.

(** C2. Heater rule on a valid snapshot: on when [temp <= lowTemp] (also
    when the two thresholds coincide and [temp] equals both), off when
    [temp > lowTemp] and [temp >= highTemp], held when
    [lowTemp < temp < highTemp]; equality counts at both boundaries. *)
Theorem processClimate_heater_rule (w : World) :
  valid_readings (state w) = true ->
  let t := temp (state w) in
  let lo := float_of_int (lowTemp (config w)) in
  let hi := float_of_int (highTemp (config w)) in
  let heaterOn := tempOn (state (world (processClimate w))) in
  (SFleb t lo = true -> heaterOn = true) /\
  (SFltb lo t = true -> SFleb hi t = true -> heaterOn = false) /\
  (SFltb lo t = true -> SFltb t hi = true -> heaterOn = tempOn (state w)) /\
  (SFeqb t lo = true -> heaterOn = true) /\
  (SFltb lo t = true -> SFeqb t hi = true -> heaterOn = false).
Proof.
  intros V t lo hi heaterOn. subst heaterOn.
  rewrite processClimate_state. cbv zeta. rewrite V. cbn [tempOn].
  fold t lo hi.
  repeat split.
  - intros H. now rewrite H.
  - intros L H. now rewrite (SFltb_SFleb_false _ _ L), H.
  - intros L H. now rewrite (SFltb_SFleb_false _ _ L), (SFltb_SFleb_false _ _ H).
  - intros H. now rewrite (SFeqb_SFleb _ _ H).
  - intros L H.
    now rewrite (SFltb_SFleb_false _ _ L), (SFeqb_SFleb _ _ (SFeqb_sym _ _ H)).
Qed.

(** Defaults 4/6: at 5 degrees a running heater keeps running. *)
Lemma processClimate_heater_rule_witness :
  valid_readings (state (climate_world default_config 5 50 5 true false)) = true /\
  tempOn (state (world (processClimate
                          (climate_world default_config 5 50 5 true false)))) = true.
Proof.
  split.
  - vm_compute. reflexivity.
  - pose proof (processClimate_heater_rule
                  (climate_world default_config 5 50 5 true false)
                  ltac:(vm_compute; reflexivity)) as H.
    cbv zeta in H. destruct H as (_ & _ & H & _).
    apply H; vm_compute; reflexivity.
Defined.

(** The heater through the dead band, defaults 4/6: on at 3 degrees, still
    on at 5, off at 7. *)
Example heater_hysteresis_trace :
  tempOn (state (world (processClimate
                          (climate_world default_config 3 50 5 false false)))) = true /\
  tempOn (state (world (processClimate
                          (climate_world default_config 5 50 5 true false)))) = true /\
  tempOn (state (world (processClimate
                          (climate_world default_config 7 50 7 true false)))) = false.
Proof. repeat split; vm_compute; reflexivity. Qed.

(** C3, as stated, fails: with the thresholds crossed (lowHumid 70,
    highHumid 60), outdoors not colder than indoors and the humidity at 65,
    [humid >= highHumid] holds, yet the fan is switched off, because
    [humid <= lowHumid] is tested first. *)
Lemma fan_rule_high_humidity_counterexample :
  ~ (valid_readings (state crossed_humid_world) = true ->
     SFltb (outdoorTemp (state crossed_humid_world))
           (temp (state crossed_humid_world)) = false ->
     SFleb (float_of_int (highHumid (config crossed_humid_world)))
           (humid (state crossed_humid_world)) = true ->
     humidOn (state (world (processClimate crossed_humid_world))) = true).
Proof.
  intros H.
  assert (E : humidOn (state (world (processClimate crossed_humid_world))) = false)
    by (vm_compute; reflexivity).
  rewrite H in E; try discriminate E; vm_compute; reflexivity.
Qed.

(** C3, amended. Fan rule on a valid snapshot: off whenever
    [outdoorTemp < temp], whatever the humidity; otherwise off when
    [humid <= lowHumid], on when [humid > lowHumid] and
    [humid >= highHumid], held when [lowHumid < humid < highHumid]. *)
Theorem processClimate_fan_rule (w : World) :
  valid_readings (state w) = true ->
  let t := temp (state w) in
  let o := outdoorTemp (state w) in
  let h := humid (state w) in
  let lo := float_of_int (lowHumid (config w)) in
  let hi := float_of_int (highHumid (config w)) in
  let fanOn := humidOn (state (world (processClimate w))) in
  (SFltb o t = true -> fanOn = false) /\
  (SFltb o t = false -> SFleb h lo = true -> fanOn = false) /\
  (SFltb o t = false -> SFltb lo h = true -> SFleb hi h = true -> fanOn = true) /\
  (SFltb o t = false -> SFltb lo h = true -> SFltb h hi = true ->
   fanOn = humidOn (state w)).
Proof.
  intros V t o h lo hi fanOn. subst fanOn.
  rewrite processClimate_state. cbv zeta. rewrite V. cbn [humidOn].
  fold t o h lo hi.
  repeat split.
  - intros H. now rewrite H.
  - intros C H. now rewrite C, H.
  - intros C L H. now rewrite C, (SFltb_SFleb_false _ _ L), H.
  - intros C L H.
    now rewrite C, (SFltb_SFleb_false _ _ L), (SFltb_SFleb_false _ _ H).
Qed.

(** Defaults 60/70, outdoors warmer, humidity 75: the fan is switched on;
    same readings with outdoors colder: the fan is switched off. *)
Lemma processClimate_fan_rule_witness :
  valid_readings (state (climate_world default_config 20 75 25 false false)) = true /\
  humidOn (state (world (processClimate
                           (climate_world default_config 20 75 25 false false)))) = true.
Proof.
  split.
  - vm_compute. reflexivity.
  - pose proof (processClimate_fan_rule
                  (climate_world default_config 20 75 25 false false)
                  ltac:(vm_compute; reflexivity)) as H.
    cbv zeta in H. destruct H as (_ & _ & H & _).
    apply H; vm_compute; reflexivity.
Defined.

(** Outside [state], the climate evaluation changes nothing and makes no
    hardware call. *)
Lemma processClimate_outside_state (w : World) :
  config (world (processClimate w)) = config w /\
  lastKey (world (processClimate w)) = lastKey w /\
  lastTime (world (processClimate w)) = lastTime w /\
  lastReadTime (world (processClimate w)) = lastReadTime w /\
  io (world (processClimate w)) = io w /\
  events (processClimate w) = [].
Proof.
  destruct w as [[m t h o hon fon] c lk lt lrt n].
  unfold processClimate. run_monad.
  destruct (isValidTemp t), (isValidHumid h), (isValidTemp o); cbn [negb orb];
    run_monad; try (repeat split; reflexivity).
  destruct (SFleb t (float_of_int (lowTemp c))),
           (SFleb (float_of_int (highTemp c)) t),
           (SFltb o t),
           (SFleb h (float_of_int (lowHumid c))),
           (SFleb (float_of_int (highHumid c)) h); repeat split; reflexivity.
Qed.

(** C10. Frame of the climate evaluation: it changes at most the two
    actuator flags; the three readings, the mode, the four thresholds (and
    the statics) are as before, in the fallback branch as in the hysteresis
    branches, and no hardware call is made. *)
Theorem processClimate_frame (w : World) :
  temp (state (world (processClimate w))) = temp (state w) /\
  humid (state (world (processClimate w))) = humid (state w) /\
  outdoorTemp (state (world (processClimate w))) = outdoorTemp (state w) /\
  mode (state (world (processClimate w))) = mode (state w) /\
  config (world (processClimate w)) = config w /\
  lastKey (world (processClimate w)) = lastKey w /\
  lastTime (world (processClimate w)) = lastTime w /\
  lastReadTime (world (processClimate w)) = lastReadTime w /\
  io (world (processClimate w)) = io w /\
  events (processClimate w) = [].
Proof.
  pose proof (processClimate_state w) as S. cbv zeta in S.
  pose proof (processClimate_outside_state w) as R.
  rewrite S.
  destruct (valid_readings (state w)); cbn [temp humid outdoorTemp mode]; tauto.
Qed.

(** ** The keypad state machine *)

Lemma key_read_eq (env : Env) (w : World) :
  key_read env w = Key_of_analog (analog env (io w)).
Proof. reflexivity. Qed.

(** A tick on which the key read is the remembered one. *)
Lemma processKeys_held (env : Env) (parameter : option Param) (step : Z) (w : World) :
  key_read env w = lastKey w ->
  processKeys env parameter step w =
    let w3 := next_io (next_io (next_io w)) in
    let reads := [EvAnalogRead (analog env (io w));
                  EvMillis (to_ulong (clock env (S (io w))));
                  EvMillis (to_ulong (clock env (S (S (io w)))))] in
    if negb (Mode_eqb (mode (state w)) idle) && (0 <? lastTime w)
       && (KEY_TIMEOUT <? long_sub (held_key_clock env w) (lastTime w))
    then mkResult tt (with_state (set_mode idle) w3)
                  (reads ++ [EvWriteConfig (config w)])
    else mkResult tt w3 reads.
Proof.
  intros H. apply Key_eqb_eq in H. unfold key_read in H.
  unfold processKeys, held_key_clock, clock_read.
  unfold bind at 1. cbn [value world events].
  change (world (readKey env w)) with (next_io w).
  change (events (readKey env w)) with ([EvAnalogRead (analog env (io w))] ++ []).
  unfold millis. run_monad. rewrite H. run_monad.
  destruct (negb (Mode_eqb (mode (state w)) idle) && (0 <? lastTime w)
            && (KEY_TIMEOUT <?
                long_sub (to_long (to_ulong (clock env (S (S (io w))))))
                  (lastTime w)));
    unfold toggleModeToIdle, writeConfig; run_monad; reflexivity.
Qed.

(** A tick on which the key read differs from the remembered one. *)
Lemma processKeys_edge (env : Env) (parameter : option Param) (step : Z) (w : World) :
  key_read env w <> lastKey w ->
  processKeys env parameter step w =
    let k := key_read env w in
    let w2 := set_lastTime (key_change_clock env w)
                (set_lastKey k (next_io (next_io w))) in
    let reads := [EvAnalogRead (analog env (io w));
                  EvMillis (to_ulong (clock env (S (io w))))] in
    if Key_eqb k select then
      if Mode_eqb (mode (state w)) setHighHumid
      then mkResult tt (with_state (set_mode idle) w2)
                    (reads ++ [EvWriteConfig (config w)])
      else mkResult tt
             (with_state (set_mode (Mode_of_int (Mode_to_int (mode (state w)) + 1))) w2)
             reads
    else if Mode_eqb (mode (state w)) idle then mkResult tt w2 reads
    else
      match parameter with
      | None => mkResult tt w2 reads
      | Some p =>
          if Key_eqb k up then
            mkResult tt
              (with_config (fun c => assign p (to_byte (deref p c + step)) c) w2)
              reads
          else if Key_eqb k down then
            mkResult tt
              (with_config (fun c => assign p (to_byte (deref p c - step)) c) w2)
              reads
          else mkResult tt w2 reads
      end.
Proof.
  intros H. apply Key_eqb_neq in H. unfold key_read in *.
  unfold processKeys, key_change_clock, clock_read.
  unfold bind at 1. cbn [value world events].
  change (world (readKey env w)) with (next_io w).
  change (events (readKey env w)) with ([EvAnalogRead (analog env (io w))] ++ []).
  unfold millis. run_monad. rewrite H. run_monad.
  cbv zeta.
  destruct (Key_eqb (value (readKey env w)) select).
  - unfold toggleMode. run_monad.
    destruct (Mode_eqb (mode (state w)) setHighHumid);
      unfold toggleModeToIdle, writeConfig; run_monad; reflexivity.
  - run_monad. destruct (Mode_eqb (mode (state w)) idle); run_monad; try reflexivity.
    destruct parameter as [p|]; run_monad; try reflexivity.
    destruct (Key_eqb (value (readKey env w)) up); run_monad; try reflexivity.
    destruct (Key_eqb (value (readKey env w)) down); run_monad; reflexivity.
Qed.

Lemma idle_timeout_due_iff (env : Env) (w : World) :
  negb (Mode_eqb (mode (state w)) idle) && (0 <? lastTime w)
  && (KEY_TIMEOUT <? long_sub (held_key_clock env w) (lastTime w)) = true
  <-> idle_timeout_due env w.
Proof.
  unfold idle_timeout_due.
  rewrite !andb_true_iff, negb_true_iff, Mode_eqb_neq, !Z.ltb_lt. tauto.
Qed.

Lemma count_saves_app (xs ys : list Event) :
  count_saves (xs ++ ys) = (count_saves xs + count_saves ys)%nat.
Proof.
  induction xs as [|e xs IH]; [reflexivity|].
  destruct e; cbn [app count_saves]; rewrite IH; reflexivity.
Qed.

Lemma keys_read_app (xs ys : list Event) :
  keys_read (xs ++ ys) = keys_read xs ++ keys_read ys.
Proof.
  induction xs as [|e xs IH]; [reflexivity|].
  destruct e; cbn [app keys_read]; rewrite IH; reflexivity.
Qed.

Lemma Key_eq_dec (a b : Key) : a = b \/ a <> b.
Proof.
  destruct (Key_eqb a b) eqn:E.
  - left. now apply Key_eqb_eq.
  - right. now apply Key_eqb_neq.
Qed.

(** Every tick reads the keypad exactly once. *)
Lemma processKeys_keys_read (env : Env) (parameter : option Param) (step : Z)
      (w : World) :
  keys_read (events (processKeys env parameter step w)) = [key_read env w].
Proof.
  destruct (Key_eq_dec (key_read env w) (lastKey w)) as [H|H].
  - rewrite (processKeys_held env parameter step w H). cbv zeta.
    destruct (negb _ && _ && _); reflexivity.
  - rewrite (processKeys_edge env parameter step w H). cbv zeta.
    destruct (Key_eqb _ select).
    + destruct (Mode_eqb _ setHighHumid); reflexivity.
    + destruct (Mode_eqb _ idle); [reflexivity|].
      destruct parameter as [p|]; [|reflexivity].
      destruct (Key_eqb _ up); [reflexivity|].
      destruct (Key_eqb _ down); reflexivity.
Qed.

Lemma ticks_cons (env : Env) (parameter : option Param) (step : Z)
      (rest : list (option Param * Z)) (w : World) :
  world (ticks env ((parameter, step) :: rest) w)
  = world (ticks env rest (world (processKeys env parameter step w))) /\
  events (ticks env ((parameter, step) :: rest) w)
  = events (processKeys env parameter step w)
    ++ events (ticks env rest (world (processKeys env parameter step w))).
Proof. split; reflexivity. Qed.

(** A held-key tick on which the idle-timeout is not due changes nothing
    but the read counter. *)
Lemma held_tick_not_due (env : Env) (parameter : option Param)
      (step : Z) (w : World) :
  key_read env w = lastKey w -> ~ idle_timeout_due env w ->
  state (world (processKeys env parameter step w)) = state w /\
  count_saves (events (processKeys env parameter step w)) = 0%nat.
Proof.
  intros H N. rewrite (processKeys_held env parameter step w H). cbv zeta.
  destruct (negb (Mode_eqb (mode (state w)) idle) && (0 <? lastTime w)
            && (KEY_TIMEOUT <? long_sub (held_key_clock env w) (lastTime w)))
    eqn:E.
  - apply idle_timeout_due_iff in E. contradiction.
  - split; reflexivity.
Qed.

(** C4. Debounce: on a tick whose key equals the remembered key, no
    threshold changes and the statics are kept; the mode changes only if
    the idle-timeout is due (then it becomes [idle]); when it is not due
    the whole state is as before and nothing is saved. *)
Theorem processKeys_held_key (env : Env) (parameter : option Param) (step : Z)
        (w : World) :
  key_read env w = lastKey w ->
  let r := processKeys env parameter step w in
  config (world r) = config w /\
  lastKey (world r) = lastKey w /\
  lastTime (world r) = lastTime w /\
  (mode (state (world r)) = mode (state w) \/
   (idle_timeout_due env w /\ mode (state (world r)) = idle)) /\
  (~ idle_timeout_due env w ->
   state (world r) = state w /\ count_saves (events r) = 0%nat).
Proof.
  intros H r. subst r. rewrite (processKeys_held env parameter step w H).
  cbv zeta.
  destruct (negb (Mode_eqb (mode (state w)) idle) && (0 <? lastTime w)
            && (KEY_TIMEOUT <? long_sub (held_key_clock env w) (lastTime w)))
    eqn:E.
  - apply idle_timeout_due_iff in E.
    cbn [world events value with_state next_io config lastKey lastTime state
         set_mode mode].
    split; [reflexivity|]. split; [reflexivity|]. split; [reflexivity|].
    split; [right; split; [exact E|reflexivity]|].
    intros N. contradiction.
  - cbn [world events value with_state next_io config lastKey lastTime state
         set_mode mode].
    split; [reflexivity|]. split; [reflexivity|]. split; [reflexivity|].
    split; [left; reflexivity|].
    intros _. split; reflexivity.
Qed.

(** The Up key held down in [setLowTemp], one second after it was pressed:
    the second tick edits nothing. *)
Lemma processKeys_held_key_witness :
  key_read (steady_env 100 2000 (float_of_int 5)) (keypad_world setLowTemp up 1000)
  = lastKey (keypad_world setLowTemp up 1000) /\
  config (world (processKeys (steady_env 100 2000 (float_of_int 5))
                   (Some p_lowTemp) 1 (keypad_world setLowTemp up 1000)))
  = default_config.
Proof.
  split.
  - reflexivity.
  - apply (processKeys_held_key (steady_env 100 2000 (float_of_int 5))
             (Some p_lowTemp) 1 (keypad_world setLowTemp up 1000)).
    reflexivity.
Defined.

(** C6, as stated, fails: in [setLowTemp], 39 seconds after the last key
    change, a tick on which the key changes (to Up) does not evaluate the
    timeout: the mode stays [setLowTemp] and nothing is saved. *)
Lemma idle_timeout_key_change_counterexample :
  ~ (mode (state (keypad_world setLowTemp none 1000)) <> idle ->
     KEY_TIMEOUT < long_sub (key_change_clock (steady_env 100 40000 (float_of_int 5))
                               (keypad_world setLowTemp none 1000))
                            (lastTime (keypad_world setLowTemp none 1000)) ->
     mode (state (world (processKeys (steady_env 100 40000 (float_of_int 5))
                           (Some p_lowTemp) 1
                           (keypad_world setLowTemp none 1000)))) = idle /\
     count_saves (events (processKeys (steady_env 100 40000 (float_of_int 5))
                            (Some p_lowTemp) 1
                            (keypad_world setLowTemp none 1000))) = 1%nat).
Proof.
  intros H.
  assert (A : mode (state (keypad_world setLowTemp none 1000)) <> idle)
    by (cbn; discriminate).
  assert (B : KEY_TIMEOUT <
              long_sub (key_change_clock (steady_env 100 40000 (float_of_int 5))
                          (keypad_world setLowTemp none 1000))
                       (lastTime (keypad_world setLowTemp none 1000)))
    by (vm_compute; reflexivity).
  destruct (H A B) as [M _]. vm_compute in M. discriminate M.
Qed.

(** C6, amended. On a tick whose key equals the remembered key, with the
    mode not [idle], a key change recorded at a positive time and more than
    30000 ms elapsed since, the mode is forced to [idle] and [writeConfig]
    is called exactly once, with the thresholds unchanged.  A tick on which
    the key changes re-arms the timer instead: the time of the change is
    stored and the only possible save is Select leaving [setHighHumid].
    Once the mode is [idle], a held-key tick saves nothing and stays idle. *)
Theorem idle_timeout_on_held_key (env : Env) (parameter : option Param)
        (step : Z) (w : World) :
  (key_read env w = lastKey w -> idle_timeout_due env w ->
   mode (state (world (processKeys env parameter step w))) = idle /\
   count_saves (events (processKeys env parameter step w)) = 1%nat /\
   config (world (processKeys env parameter step w)) = config w) /\
  (key_read env w <> lastKey w ->
   lastTime (world (processKeys env parameter step w)) = key_change_clock env w /\
   count_saves (events (processKeys env parameter step w))
   = if Key_eqb (key_read env w) select && Mode_eqb (mode (state w)) setHighHumid
     then 1%nat else 0%nat) /\
  (key_read env w = lastKey w -> mode (state w) = idle ->
   mode (state (world (processKeys env parameter step w))) = idle /\
   count_saves (events (processKeys env parameter step w)) = 0%nat).
Proof.
  split; [|split].
  - intros H D. rewrite (processKeys_held env parameter step w H). cbv zeta.
    apply idle_timeout_due_iff in D. rewrite D.
    repeat split; reflexivity.
  - intros H. rewrite (processKeys_edge env parameter step w H). cbv zeta.
    destruct (Key_eqb (key_read env w) select).
    + destruct (Mode_eqb (mode (state w)) setHighHumid); split; reflexivity.
    + cbn [andb].
      destruct (Mode_eqb (mode (state w)) idle); [split; reflexivity|].
      destruct parameter as [p|]; [|split; reflexivity].
      destruct (Key_eqb (key_read env w) up); [split; reflexivity|].
      destruct (Key_eqb (key_read env w) down); split; reflexivity.
  - intros H I. rewrite (processKeys_held env parameter step w H). cbv zeta.
    rewrite I. cbn [Mode_eqb Mode_to_int Z.eqb negb andb].
    cbn [world events value next_io state count_saves]. rewrite I.
    split; reflexivity.
Qed.

(** In [setLowTemp], no key touched since the Select press at 1000 ms; at
    40000 ms the edit is abandoned and saved. *)
Lemma idle_timeout_on_held_key_witness :
  key_read (steady_env 1023 40000 (float_of_int 5))
           (keypad_world setLowTemp none 1000)
  = lastKey (keypad_world setLowTemp none 1000) /\
  idle_timeout_due (steady_env 1023 40000 (float_of_int 5))
                   (keypad_world setLowTemp none 1000) /\
  mode (state (world (processKeys (steady_env 1023 40000 (float_of_int 5))
                        (Some p_lowTemp) 1
                        (keypad_world setLowTemp none 1000)))) = idle.
Proof.
  assert (K : key_read (steady_env 1023 40000 (float_of_int 5))
                       (keypad_world setLowTemp none 1000)
              = lastKey (keypad_world setLowTemp none 1000)) by reflexivity.
  assert (D : idle_timeout_due (steady_env 1023 40000 (float_of_int 5))
                               (keypad_world setLowTemp none 1000)).
  { split; [cbn; discriminate | split; vm_compute; reflexivity]. }
  split; [exact K|]. split; [exact D|].
  destruct (idle_timeout_on_held_key (steady_env 1023 40000 (float_of_int 5))
              (Some p_lowTemp) 1 (keypad_world setLowTemp none 1000)) as [H _].
  exact (proj1 (H K D)).
Defined.

(** C9. Before any key change is recorded ([lastTime] still 0), a run of
    ticks on which the key stays the remembered one never times out,
    however far the clock advances: mode, thresholds and statics are as at
    the start and [writeConfig] is never called. *)
Theorem no_timeout_before_first_key_change (env : Env)
        (args : list (option Param * Z)) (w : World) :
  lastTime w = 0 ->
  Forall (fun k => k = lastKey w) (keys_read (events (ticks env args w))) ->
  state (world (ticks env args w)) = state w /\
  config (world (ticks env args w)) = config w /\
  lastKey (world (ticks env args w)) = lastKey w /\
  lastTime (world (ticks env args w)) = 0 /\
  count_saves (events (ticks env args w)) = 0%nat.
Proof.
  revert w. induction args as [|[parameter step] rest IH]; intros w T F.
  - cbn. repeat split; try reflexivity. exact T.
  - destruct (ticks_cons env parameter step rest w) as [EW EE].
    rewrite EW, EE. rewrite EE in F. clear EW EE.
    rewrite keys_read_app, processKeys_keys_read in F.
    change ([key_read env w] ++ ?l) with (key_read env w :: l) in F.
    pose proof (Forall_inv F) as K. cbv beta in K.
    apply Forall_inv_tail in F.
    pose proof (processKeys_held env parameter step w K) as S. cbv zeta in S.
    rewrite T in S. rewrite andb_false_r in S. cbn [andb] in S.
    rewrite S in F |- *. cbn [world events] in F |- *.
    destruct (IH (next_io (next_io (next_io w))) T F) as (A & B & C & D & E).
    rewrite A, B, C, D, count_saves_app, E. repeat split; reflexivity.
Qed.

(** From power-up, in an edit mode that never saw a key, a released keypad
    and the clock at 40 days: three ticks change nothing. *)
Lemma no_timeout_before_first_key_change_witness :
  lastTime (keypad_world setLowTemp none 0) = 0 /\
  count_saves (events (ticks (steady_env 1023 3456000000 (float_of_int 5))
                         [(Some p_lowTemp, 1); (Some p_lowTemp, 1); (Some p_lowTemp, 1)]
                         (keypad_world setLowTemp none 0))) = 0%nat.
Proof.
  split; [reflexivity|].
  apply (no_timeout_before_first_key_change
           (steady_env 1023 3456000000 (float_of_int 5))
           [(Some p_lowTemp, 1); (Some p_lowTemp, 1); (Some p_lowTemp, 1)]
           (keypad_world setLowTemp none 0)).
  - reflexivity.
  - vm_compute. repeat constructor.
Defined.

Lemma deref_assign_same (p : Param) (v : Z) (c : Config) :
  deref p (assign p v c) = v.
Proof. destruct p; reflexivity. Qed.

Lemma deref_assign_other (p q : Param) (v : Z) (c : Config) :
  q <> p -> deref q (assign p v c) = deref q c.
Proof. destruct p, q; intros H; try reflexivity; contradiction H; reflexivity. Qed.

(** What [loop] does to the globals in an edit mode is what the input
    machine does with that mode's threshold and step. *)
Lemma loop_edit_mode (env : Env) (w : World) (p : Param) (step : Z) :
  edit_target (mode (state w)) = Some (p, step) ->
  world (loop env w) = world (processKeys env (Some p) step w).
Proof.
  unfold loop, edit_target. unfold bind at 1. cbn [gets value world].
  destruct (mode (state w)); intros H; inversion H; subst; reflexivity.
Qed.

(** C7. Edit semantics: on a key change in a mode other than [idle] with a
    target threshold, Up stores target + step and Down stores target - step,
    both reduced modulo 256 (no clamping), and no other threshold changes;
    [loop] passes step 1 for the two temperature thresholds and step 5 for
    the two humidity thresholds. *)
Theorem processKeys_edit_semantics (env : Env) (w : World) :
  key_read env w <> lastKey w ->
  mode (state w) <> idle ->
  (forall (p : Param) (step : Z),
      let c' := config (world (processKeys env (Some p) step w)) in
      (key_read env w = up ->
       deref p c' = (deref p (config w) + step) mod 256) /\
      (key_read env w = down ->
       deref p c' = (deref p (config w) - step) mod 256) /\
      (forall q : Param, q <> p -> deref q c' = deref q (config w))) /\
  (exists (p : Param) (step : Z),
      edit_target (mode (state w)) = Some (p, step) /\
      step = match p with p_lowTemp | p_highTemp => 1 | _ => 5 end /\
      world (loop env w) = world (processKeys env (Some p) step w)).
Proof.
  intros E M. split.
  - intros p step c'. subst c'.
    rewrite (processKeys_edge env (Some p) step w E). cbv zeta.
    apply Mode_eqb_neq in M. rewrite M.
    destruct (Key_eqb (key_read env w) select) eqn:Ks.
    { apply Key_eqb_eq in Ks. rewrite Ks.
      destruct (Mode_eqb (mode (state w)) setHighHumid);
        (split; [discriminate|split; [discriminate|reflexivity]]). }
    destruct (Key_eqb (key_read env w) up) eqn:Ku.
    { apply Key_eqb_eq in Ku. rewrite Ku.
      cbn [world with_config config set_lastTime set_lastKey next_io].
      split; [intros _; apply deref_assign_same|].
      split; [discriminate|]. intros q Q. now apply deref_assign_other. }
    destruct (Key_eqb (key_read env w) down) eqn:Kd.
    { apply Key_eqb_eq in Kd. rewrite Kd.
      cbn [world with_config config set_lastTime set_lastKey next_io].
      split; [discriminate|].
      split; [intros _; apply deref_assign_same|].
      intros q Q. now apply deref_assign_other. }
    apply Key_eqb_neq in Ku, Kd.
    cbn [world config set_lastTime set_lastKey next_io].
    split; [intros U; contradiction|]. split; [intros D; contradiction|].
    reflexivity.
  - destruct (mode (state w)) eqn:Em; [contradiction M; reflexivity| | | |].
    + exists p_lowTemp, 1. repeat split. apply loop_edit_mode. now rewrite Em.
    + exists p_highTemp, 1. repeat split. apply loop_edit_mode. now rewrite Em.
    + exists p_lowHumid, 5. repeat split. apply loop_edit_mode. now rewrite Em.
    + exists p_highHumid, 5. repeat split. apply loop_edit_mode. now rewrite Em.
Qed.

(** Wrap-around at both ends: in [setHighHumid] with highHumid at 255, Up
    (step 5) stores 4. *)
Lemma processKeys_edit_semantics_witness :
  key_read (steady_env 100 2000 (float_of_int 5))
           (mkWorld (mkState setHighHumid (float_of_int 5) (float_of_int 50)
                       (float_of_int 5) false false)
                    (mkConfig 4 6 60 255) none 1000 0 0%nat)
  = up /\
  highHumid (config (world (processKeys (steady_env 100 2000 (float_of_int 5))
                              (Some p_highHumid) 5
                              (mkWorld (mkState setHighHumid (float_of_int 5)
                                          (float_of_int 50) (float_of_int 5)
                                          false false)
                                       (mkConfig 4 6 60 255) none 1000 0 0%nat))))
  = 4.
Proof.
  split; [reflexivity|].
  destruct (processKeys_edit_semantics (steady_env 100 2000 (float_of_int 5))
              (mkWorld (mkState setHighHumid (float_of_int 5) (float_of_int 50)
                          (float_of_int 5) false false)
                       (mkConfig 4 6 60 255) none 1000 0 0%nat)
              ltac:(cbv; discriminate) ltac:(cbv; discriminate)) as [H _].
  destruct (H p_highHumid 5) as [U _]. exact (U eq_refl).
Defined.

Lemma Mode_succ (m : Mode) :
  m <> setHighHumid -> Mode_of_int (Mode_to_int m + 1) = next_mode m.
Proof. destruct m; intros H; [reflexivity ..|congruence]. Qed.

(** One tick on which the key changes to Select. *)
Lemma processKeys_select (env : Env) (parameter : option Param) (step : Z)
      (w : World) :
  key_read env w = select -> lastKey w <> select ->
  mode (state (world (processKeys env parameter step w))) = next_mode (mode (state w)) /\
  count_saves (events (processKeys env parameter step w))
  = if Mode_eqb (mode (state w)) setHighHumid then 1%nat else 0%nat.
Proof.
  intros K L.
  assert (E : key_read env w <> lastKey w) by (rewrite K; congruence).
  rewrite (processKeys_edge env parameter step w E). cbv zeta. rewrite K.
  cbn [Key_eqb Key_to_int Z.eqb Pos.eqb].
  destruct (Mode_eqb (mode (state w)) setHighHumid) eqn:M.
  - apply Mode_eqb_eq in M. rewrite M. split; reflexivity.
  - apply Mode_eqb_neq in M.
    cbn [world events with_state state set_mode mode count_saves].
    rewrite (Mode_succ _ M). split; reflexivity.
Qed.

(** One tick that is neither a Select edge nor a due timeout keeps the mode
    and saves nothing. *)
Lemma processKeys_other (env : Env) (parameter : option Param) (step : Z)
      (w : World) :
  ~ (key_read env w = lastKey w /\ idle_timeout_due env w) ->
  negb (Key_eqb (key_read env w) (lastKey w)) && Key_eqb (key_read env w) select
  = false ->
  mode (state (world (processKeys env parameter step w))) = mode (state w) /\
  count_saves (events (processKeys env parameter step w)) = 0%nat.
Proof.
  intros T N.
  destruct (Key_eq_dec (key_read env w) (lastKey w)) as [H|H].
  - destruct (held_tick_not_due env parameter step w H) as [S C].
    + intros D. apply T. now split.
    + now rewrite S, C.
  - apply Key_eqb_neq in H. rewrite H in N. cbn [negb andb] in N.
    apply Key_eqb_neq in H.
    rewrite (processKeys_edge env parameter step w H). cbv zeta. rewrite N.
    destruct (Mode_eqb (mode (state w)) idle); [split; reflexivity|].
    destruct parameter as [p|]; [|split; reflexivity].
    destruct (Key_eqb (key_read env w) up); [split; reflexivity|].
    destruct (Key_eqb (key_read env w) down); split; reflexivity.
Qed.

(** A run without timeouts moves the mode one step along the cycle per
    Select edge and saves once per return to [idle]. *)
Lemma ticks_select_steps (env : Env) (args : list (option Param * Z)) :
  forall w : World,
    timeout_free env args w ->
    (mode (state (world (ticks env args w))),
     count_saves (events (ticks env args w)))
    = select_steps (select_edges env args w) (mode (state w)).
Proof.
  induction args as [|[parameter step] rest IH]; intros w T.
  - reflexivity.
  - destruct T as [T0 T]. specialize (IH _ T).
    destruct (ticks_cons env parameter step rest w) as [EW EE].
    rewrite EW, EE, count_saves_app. clear EW EE.
    cbn [select_edges].
    destruct (negb (Key_eqb (key_read env w) (lastKey w))
              && Key_eqb (key_read env w) select) eqn:N.
    + apply andb_true_iff in N. destruct N as [N1 N2].
      apply negb_true_iff, Key_eqb_neq in N1. apply Key_eqb_eq in N2.
      assert (L : lastKey w <> select) by congruence.
      destruct (processKeys_select env parameter step w N2 L) as [M C].
      cbn [Nat.add select_steps]. rewrite <- M, <- IH, C. reflexivity.
    + destruct (processKeys_other env parameter step w T0 N) as [M C].
      cbn [Nat.add]. rewrite <- M, <- IH, C. reflexivity.
Qed.

(** C5, as stated, fails: five Select edges from [idle] do not return to
    [idle] when the idle-timeout fires between them.  After the first tap
    (to [setLowTemp]) and its release, a held tick 39 s later times out to
    [idle]; the four remaining taps then end in [setHighHumid]. *)
Lemma five_selects_with_pause_counterexample :
  ~ (mode (state after_setup) = idle ->
     select_edges pausing_env paused_taps after_setup = 5%nat ->
     mode (state (world (ticks pausing_env paused_taps after_setup))) = idle /\
     count_saves (events (ticks pausing_env paused_taps after_setup)) = 1%nat).
Proof.
  intros H.
  assert (I : mode (state after_setup) = idle) by reflexivity.
  assert (N : select_edges pausing_env paused_taps after_setup = 5%nat)
    by (vm_compute; reflexivity).
  destruct (H I N) as [M _]. vm_compute in M. discriminate M.
Qed.

(** C5, amended. A key change to Select advances the mode one step along
    idle, setLowTemp, setHighTemp, setLowHumid, setHighHumid, idle, and
    [writeConfig] is called exactly on the step from [setHighHumid] to
    [idle]; so a run of ticks from [idle] with five Select edges (other
    keys and held keys in between) and no idle-timeout firing on a held
    tick ends in [idle] with exactly one save. *)
Theorem select_mode_cycle (env : Env) (w : World) :
  (forall (parameter : option Param) (step : Z),
      key_read env w = select -> lastKey w <> select ->
      mode (state (world (processKeys env parameter step w)))
      = next_mode (mode (state w)) /\
      (count_saves (events (processKeys env parameter step w)) = 1%nat
       <-> mode (state w) = setHighHumid) /\
      (count_saves (events (processKeys env parameter step w)) = 0%nat
       <-> mode (state w) <> setHighHumid)) /\
  (forall args : list (option Param * Z),
      mode (state w) = idle ->
      timeout_free env args w ->
      select_edges env args w = 5%nat ->
      mode (state (world (ticks env args w))) = idle /\
      count_saves (events (ticks env args w)) = 1%nat).
Proof.
  split.
  - intros parameter step K L.
    destruct (processKeys_select env parameter step w K L) as [M C].
    rewrite C. split; [exact M|].
    destruct (Mode_eqb (mode (state w)) setHighHumid) eqn:E.
    + apply Mode_eqb_eq in E. split; split; congruence.
    + apply Mode_eqb_neq in E. split; split; congruence.
  - intros args I T N.
    pose proof (ticks_select_steps env args w T) as S.
    rewrite N, I in S. cbn in S. now inversion S.
Qed.

(** Five press-and-release taps on Select after power-up. *)
Lemma select_mode_cycle_witness :
  mode (state boot) = idle /\
  select_edges tapping_env five_taps boot = 5%nat /\
  mode (state (world (ticks tapping_env five_taps boot))) = idle /\
  count_saves (events (ticks tapping_env five_taps boot)) = 1%nat.
Proof.
  assert (N : select_edges tapping_env five_taps boot = 5%nat)
    by (vm_compute; reflexivity).
  assert (T : timeout_free tapping_env five_taps boot).
  { cbn [timeout_free five_taps].
    repeat (split; [intros [A _]; vm_compute in A; discriminate A|]).
    exact I. }
  split; [reflexivity|]. split; [exact N|].
  destruct (select_mode_cycle tapping_env boot) as [_ H].
  exact (H five_taps eq_refl T N).
Defined.

(** ** The idle loop and the sampling period *)

Lemma sample_steps_app (xs ys : list Event) :
  sample_steps (xs ++ ys) = sample_steps xs ++ sample_steps ys.
Proof.
  induction xs as [|e xs IH]; [reflexivity|].
  destruct e; cbn [app sample_steps]; rewrite IH; reflexivity.
Qed.

(** The input machine touches neither the readings, nor the actuator
    flags, nor the sampling timestamp, and makes no sensor or display call. *)
Lemma processKeys_sampling_frame (env : Env) (parameter : option Param)
      (step : Z) (w : World) :
  temp (state (world (processKeys env parameter step w))) = temp (state w) /\
  humid (state (world (processKeys env parameter step w))) = humid (state w) /\
  outdoorTemp (state (world (processKeys env parameter step w)))
  = outdoorTemp (state w) /\
  lastReadTime (world (processKeys env parameter step w)) = lastReadTime w /\
  sample_steps (events (processKeys env parameter step w)) = [].
Proof.
  destruct (Key_eq_dec (key_read env w) (lastKey w)) as [H|H].
  - rewrite (processKeys_held env parameter step w H). cbv zeta.
    destruct (negb _ && _ && _); repeat split; reflexivity.
  - rewrite (processKeys_edge env parameter step w H). cbv zeta.
    destruct (Key_eqb _ select).
    + destruct (Mode_eqb _ setHighHumid); repeat split; reflexivity.
    + destruct (Mode_eqb _ idle); [repeat split; reflexivity|].
      destruct parameter as [p|]; [|repeat split; reflexivity].
      destruct (Key_eqb _ up); [repeat split; reflexivity|].
      destruct (Key_eqb _ down); repeat split; reflexivity.
Qed.

Lemma processIU_sampling_frame (env : Env) (w : World) :
  temp (state (world (processIU env w))) = temp (state w) /\
  humid (state (world (processIU env w))) = humid (state w) /\
  outdoorTemp (state (world (processIU env w))) = outdoorTemp (state w) /\
  lastReadTime (world (processIU env w)) = lastReadTime w /\
  sample_steps (events (processIU env w)) = [Refresh].
Proof.
  change (world (processIU env w)) with (world (processKeys env None 0 w)).
  change (events (processIU env w))
    with ([EvDisplayIdle (state w)] ++ events (processKeys env None 0 w)).
  rewrite sample_steps_app.
  destruct (processKeys_sampling_frame env None 0 w) as (A & B & C & D & E).
  rewrite A, B, C, D, E. repeat split; reflexivity.
Qed.

(** Projections of a sequenced run, for stepping through long procedures
    without unfolding them whole. *)
Lemma world_bind {A B} (m : M A) (f : A -> M B) (w : World) :
  world (bind m f w) = world (f (value (m w)) (world (m w))).
Proof. reflexivity. Qed.

Lemma events_bind {A B} (m : M A) (f : A -> M B) (w : World) :
  events (bind m f w) = events (m w) ++ events (f (value (m w)) (world (m w))).
Proof. reflexivity. Qed.

Lemma run_gets {A} (f : World -> A) (w : World) :
  gets f w = mkResult (f w) w [].
Proof. reflexivity. Qed.

Lemma run_modify (f : World -> World) (w : World) :
  modify f w = mkResult tt (f w) [].
Proof. reflexivity. Qed.

Lemma run_emit (e : Event) (w : World) : emit e w = mkResult tt w [e].
Proof. reflexivity. Qed.

Lemma run_input {A} (src : nat -> A) (ev : A -> Event) (w : World) :
  input src ev w = mkResult (src (io w)) (next_io w) [ev (src (io w))].
Proof. reflexivity. Qed.

Lemma run_ret {A} (a : A) (w : World) : ret a w = mkResult a w [].
Proof. reflexivity. Qed.

Create Rewrite HintDb run.
#[local] Hint Rewrite @world_bind @events_bind @run_gets @run_modify @run_emit
  @run_input @run_ret : run.

Ltac step_run :=
  repeat (autorewrite with run; cbn [value world events]).

(** Projections of the field updates. *)
Lemma state_with_state (f : State -> State) (w : World) :
  state (with_state f w) = f (state w).
Proof. reflexivity. Qed.

Lemma state_next_io (w : World) : state (next_io w) = state w.
Proof. reflexivity. Qed.

Lemma state_set_lastReadTime (t : Z) (w : World) :
  state (set_lastReadTime t w) = state w.
Proof. reflexivity. Qed.

Lemma lastReadTime_with_state (f : State -> State) (w : World) :
  lastReadTime (with_state f w) = lastReadTime w.
Proof. reflexivity. Qed.

Lemma lastReadTime_next_io (w : World) : lastReadTime (next_io w) = lastReadTime w.
Proof. reflexivity. Qed.

Lemma lastReadTime_set_lastReadTime (t : Z) (w : World) :
  lastReadTime (set_lastReadTime t w) = t.
Proof. reflexivity. Qed.

Lemma io_next_io (w : World) : io (next_io w) = S (io w).
Proof. reflexivity. Qed.

Lemma io_set_lastReadTime (t : Z) (w : World) : io (set_lastReadTime t w) = io w.
Proof. reflexivity. Qed.

Lemma readings_set_temp (x : float) (s : State) :
  temp (set_temp x s) = x /\ humid (set_temp x s) = humid s /\
  outdoorTemp (set_temp x s) = outdoorTemp s.
Proof. repeat split. Qed.

Lemma readings_set_humid (x : float) (s : State) :
  temp (set_humid x s) = temp s /\ humid (set_humid x s) = x /\
  outdoorTemp (set_humid x s) = outdoorTemp s.
Proof. repeat split. Qed.

Lemma readings_set_outdoorTemp (x : float) (s : State) :
  temp (set_outdoorTemp x s) = temp s /\ humid (set_outdoorTemp x s) = humid s /\
  outdoorTemp (set_outdoorTemp x s) = x.
Proof. repeat split. Qed.

#[local] Hint Rewrite state_with_state state_next_io state_set_lastReadTime
  lastReadTime_with_state lastReadTime_next_io lastReadTime_set_lastReadTime
  io_next_io io_set_lastReadTime
  (fun x s => proj1 (readings_set_temp x s))
  (fun x s => proj1 (proj2 (readings_set_temp x s)))
  (fun x s => proj2 (proj2 (readings_set_temp x s)))
  (fun x s => proj1 (readings_set_humid x s))
  (fun x s => proj1 (proj2 (readings_set_humid x s)))
  (fun x s => proj2 (proj2 (readings_set_humid x s)))
  (fun x s => proj1 (readings_set_outdoorTemp x s))
  (fun x s => proj1 (proj2 (readings_set_outdoorTemp x s)))
  (fun x s => proj2 (proj2 (readings_set_outdoorTemp x s))) : run.

Lemma processIU_temp (env : Env) (w : World) :
  temp (state (world (processIU env w))) = temp (state w).
Proof. apply processIU_sampling_frame. Qed.

Lemma processIU_humid (env : Env) (w : World) :
  humid (state (world (processIU env w))) = humid (state w).
Proof. apply processIU_sampling_frame. Qed.

Lemma processIU_outdoorTemp (env : Env) (w : World) :
  outdoorTemp (state (world (processIU env w))) = outdoorTemp (state w).
Proof. apply processIU_sampling_frame. Qed.

Lemma processIU_lastReadTime (env : Env) (w : World) :
  lastReadTime (world (processIU env w)) = lastReadTime w.
Proof. apply processIU_sampling_frame. Qed.

Lemma processIU_sample_steps (env : Env) (w : World) :
  sample_steps (events (processIU env w)) = [Refresh].
Proof. apply processIU_sampling_frame. Qed.

#[local] Hint Rewrite processIU_temp processIU_humid processIU_outdoorTemp
  processIU_lastReadTime processIU_sample_steps sample_steps_app : run.

Ltac find_in :=
  repeat match goal with
         | |- _ \/ _ => first [left; solve [left; reflexivity] | right]
         end;
  try solve [left; reflexivity].

Ltac step_sensors :=
  unfold processSensors, millis, dht_readTemperature, dht_readHumidity,
    dsSensors_getTempC, dsSensors_requestTemperatures;
  step_run.

(** [processSensors] when the period has not elapsed: one clock read and
    nothing else. *)
Lemma processSensors_skip (env : Env) (w : World) :
  long_sub (clock_read env (io w)) (lastReadTime w) <= SENSORS_READ_PERIOD ->
  processSensors env w
  = mkResult tt (next_io w) [EvMillis (to_ulong (clock env (io w)))].
Proof.
  intros H. apply Z.ltb_ge in H. unfold clock_read in H.
  destruct (processSensors env w) as [[] w' evs] eqn:E.
  assert (W : world (processSensors env w) = w') by now rewrite E.
  assert (V : events (processSensors env w) = evs) by now rewrite E.
  clear E. revert W V.
  step_sensors. rewrite H. step_sensors.
  intros <- <-. reflexivity.
Qed.

(** [processSensors] when the period has elapsed. *)
Lemma processSensors_sample (env : Env) (w : World) :
  SENSORS_READ_PERIOD < long_sub (clock_read env (io w)) (lastReadTime w) ->
  sample_steps (events (processSensors env w))
  = [ReadTemperature; Refresh; ReadHumidity; Refresh;
     RequestTemperatures; Refresh; GetTempC; Refresh] /\
  lastReadTime (world (processSensors env w)) = clock_read env (io w) /\
  temp (state (world (processSensors env w))) = dht_temperature env (S (io w)) /\
  In (EvReadHumidity (humid (state (world (processSensors env w)))))
     (events (processSensors env w)) /\
  In (EvGetTempC (outdoorTemp (state (world (processSensors env w)))))
     (events (processSensors env w)).
Proof.
  intros H. apply Z.ltb_lt in H. unfold clock_read in H.
  split; [|split; [|split; [|split]]].
  - step_sensors. rewrite H. step_sensors. reflexivity.
  - step_sensors. rewrite H. step_sensors. reflexivity.
  - step_sensors. rewrite H. step_sensors. reflexivity.
  - step_sensors. rewrite H. step_sensors.
    rewrite !in_app_iff. find_in.
  - step_sensors. rewrite H. step_sensors.
    rewrite !in_app_iff. find_in.
Qed.

Lemma processRelays_world (w : World) : world (processRelays w) = w.
Proof. unfold processRelays, digitalWrite. step_run. reflexivity. Qed.

Lemma processRelays_sample_steps (w : World) :
  sample_steps (events (processRelays w)) = [].
Proof. unfold processRelays, digitalWrite. step_run. reflexivity. Qed.

(** The readings [processClimate] leaves are those it found. *)
Lemma processClimate_readings (w : World) :
  temp (state (world (processClimate w))) = temp (state w) /\
  humid (state (world (processClimate w))) = humid (state w) /\
  outdoorTemp (state (world (processClimate w))) = outdoorTemp (state w).
Proof.
  pose proof (processClimate_state w) as S. cbv zeta in S. rewrite S.
  destruct (valid_readings (state w)); repeat split; reflexivity.
Qed.

(** One idle-loop iteration, taken apart. *)
Lemma loopIdle_parts (env : Env) (w : World) :
  world (loopIdle env w)
  = world (processClimate (world (processSensors env (before_sensors env w)))) /\
  sample_steps (events (loopIdle env w))
  = Refresh :: sample_steps (events (processSensors env (before_sensors env w))) /\
  (forall e : Event,
      In e (events (processSensors env (before_sensors env w))) ->
      In e (events (loopIdle env w))).
Proof.
  unfold loopIdle, before_sensors. step_run.
  rewrite processRelays_world, processRelays_sample_steps.
  rewrite (proj2 (proj2 (proj2 (proj2 (proj2
             (processClimate_outside_state _)))))).
  cbn [sample_steps]. rewrite !app_nil_r.
  split; [reflexivity|]. split; [reflexivity|].
  intros e H. rewrite !in_app_iff. right. left. exact H.
Qed.

(** C8, as stated, fails: with exactly 5000 ms on the clock since the last
    sample, "at least 5000 ms" holds but no sensor is read. *)
Lemma sampling_period_boundary_counterexample :
  ~ (SENSORS_READ_PERIOD
     <= since_last_sample (steady_env 1023 5000 (float_of_int 5)) after_setup
     <->
     sample_steps (events (loopIdle (steady_env 1023 5000 (float_of_int 5))
                             after_setup))
     = [Refresh; ReadTemperature; Refresh; ReadHumidity; Refresh;
        RequestTemperatures; Refresh; GetTempC; Refresh]).
Proof.
  intros [H _].
  assert (E : SENSORS_READ_PERIOD
              <= since_last_sample (steady_env 1023 5000 (float_of_int 5))
                   after_setup)
    by (vm_compute; discriminate).
  specialize (H E). vm_compute in H. discriminate H.
Qed.

Lemma idle_steps_app (xs ys : list Event) :
  idle_steps (xs ++ ys) = idle_steps xs ++ idle_steps ys.
Proof.
  induction xs as [|e xs IH]; [reflexivity|].
  destruct e; cbn [app idle_steps]; rewrite IH; reflexivity.
Qed.

(** Every tick of the input machine polls the keypad once and makes no
    sensor or idle-screen call. *)
Lemma processKeys_idle_steps (env : Env) (parameter : option Param) (step : Z)
      (w : World) :
  idle_steps (events (processKeys env parameter step w)) = [KeyPoll].
Proof.
  destruct (Key_eq_dec (key_read env w) (lastKey w)) as [H|H].
  - rewrite (processKeys_held env parameter step w H). cbv zeta.
    destruct (negb _ && _ && _); reflexivity.
  - rewrite (processKeys_edge env parameter step w H). cbv zeta.
    destruct (Key_eqb _ select).
    + destruct (Mode_eqb _ setHighHumid); reflexivity.
    + destruct (Mode_eqb _ idle); [reflexivity|].
      destruct parameter as [p|]; [|reflexivity].
      destruct (Key_eqb _ up); [reflexivity|].
      destruct (Key_eqb _ down); reflexivity.
Qed.

(** The idle screen: one refresh, then one key poll. *)
Lemma processIU_idle_steps (env : Env) (w : World) :
  idle_steps (events (processIU env w)) = [Step Refresh; KeyPoll].
Proof.
  change (events (processIU env w))
    with ([EvDisplayIdle (state w)] ++ events (processKeys env None 0 w)).
  rewrite idle_steps_app, processKeys_idle_steps. reflexivity.
Qed.

#[local] Hint Rewrite idle_steps_app processIU_idle_steps : run.

Lemma processSensors_idle_steps (env : Env) (w : World) :
  (SENSORS_READ_PERIOD < long_sub (clock_read env (io w)) (lastReadTime w) ->
   idle_steps (events (processSensors env w))
   = [Step ReadTemperature; Step Refresh; KeyPoll;
      Step ReadHumidity; Step Refresh; KeyPoll;
      Step RequestTemperatures; Step Refresh; KeyPoll;
      Step GetTempC; Step Refresh; KeyPoll]) /\
  (long_sub (clock_read env (io w)) (lastReadTime w) <= SENSORS_READ_PERIOD ->
   idle_steps (events (processSensors env w)) = []).
Proof.
  split; intros H.
  - apply Z.ltb_lt in H. unfold clock_read in H.
    step_sensors. rewrite H. step_sensors. reflexivity.
  - rewrite (processSensors_skip env w H). reflexivity.
Qed.

Lemma loopIdle_idle_steps (env : Env) (w : World) :
  idle_steps (events (loopIdle env w))
  = [Step Refresh; KeyPoll]
    ++ idle_steps (events (processSensors env (before_sensors env w))).
Proof.
  unfold loopIdle, before_sensors. step_run.
  rewrite (proj2 (proj2 (proj2 (proj2 (proj2
             (processClimate_outside_state _)))))).
  unfold processRelays, digitalWrite. step_run.
  cbn [idle_steps]. rewrite !app_nil_r. reflexivity.
Qed.

(** C8, amended. On an idle-loop iteration the sensors are sampled exactly
    when more than 5000 ms have elapsed since the last sample, the elapsed
    time being the 32-bit signed difference between the time
    [processSensors] reads and the stored sample time: then the reads go
    temperature, humidity, request, outdoor temperature, each followed by
    an idle-screen refresh and a key poll, the values read are the ones
    stored, and the sample time is recorded; otherwise no sensor is read
    and the stored readings and the sample time are unchanged.  In both
    cases the iteration starts with a refresh and a key poll, and the
    climate evaluation runs after the sampling step, on the readings then
    stored. *)
Theorem loopIdle_sampling_period (env : Env) (w : World) :
  (SENSORS_READ_PERIOD < since_last_sample env w ->
   idle_steps (events (loopIdle env w))
   = [Step Refresh; KeyPoll;
      Step ReadTemperature; Step Refresh; KeyPoll;
      Step ReadHumidity; Step Refresh; KeyPoll;
      Step RequestTemperatures; Step Refresh; KeyPoll;
      Step GetTempC; Step Refresh; KeyPoll] /\
   In (EvReadTemperature (temp (state (world (loopIdle env w)))))
      (events (loopIdle env w)) /\
   In (EvReadHumidity (humid (state (world (loopIdle env w)))))
      (events (loopIdle env w)) /\
   In (EvGetTempC (outdoorTemp (state (world (loopIdle env w)))))
      (events (loopIdle env w)) /\
   lastReadTime (world (loopIdle env w))
   = clock_read env (io (before_sensors env w))) /\
  (since_last_sample env w <= SENSORS_READ_PERIOD ->
   idle_steps (events (loopIdle env w)) = [Step Refresh; KeyPoll] /\
   temp (state (world (loopIdle env w))) = temp (state w) /\
   humid (state (world (loopIdle env w))) = humid (state w) /\
   outdoorTemp (state (world (loopIdle env w))) = outdoorTemp (state w) /\
   lastReadTime (world (loopIdle env w)) = lastReadTime w) /\
  world (loopIdle env w)
  = world (processClimate (world (processSensors env (before_sensors env w)))).
Proof.
  destruct (loopIdle_parts env w) as (W & _ & I).
  pose proof (loopIdle_idle_steps env w) as S.
  unfold since_last_sample.
  rewrite <- (processIU_lastReadTime env w). fold (before_sensors env w).
  set (w1 := before_sensors env w) in *.
  destruct (processClimate_readings (world (processSensors env w1)))
    as (Ct & Ch & Co).
  pose proof (processClimate_outside_state (world (processSensors env w1)))
    as (_ & _ & _ & Cl & _).
  destruct (processSensors_idle_steps env w1) as (Q1 & Q2).
  split; [|split; [|exact W]].
  - intros H.
    destruct (processSensors_sample env w1 H) as (_ & P2 & P3 & P4 & P5).
    rewrite W, S, (Q1 H), Ct, Ch, Co, Cl, P2.
    split; [reflexivity|].
    split.
    { apply I. rewrite P3.
      unfold processSensors. rewrite events_bind, events_bind.
      unfold clock_read in H. apply Z.ltb_lt in H.
      unfold millis. step_run. rewrite H.
      unfold dht_readTemperature. step_run.
      rewrite !in_app_iff. find_in. }
    split; [apply I; exact P4|]. split; [apply I; exact P5|]. reflexivity.
  - intros H. rewrite W, S, (Q2 H), Ct, Ch, Co, Cl.
    rewrite (processSensors_skip env w1 H).
    cbn [world events app]. rewrite state_next_io, lastReadTime_next_io.
    subst w1. unfold before_sensors.
    rewrite processIU_temp, processIU_humid, processIU_outdoorTemp.
    repeat split; reflexivity.
Qed.

(** Six seconds after power-up the first sample is taken; each sensor
    answers 5. *)
Lemma loopIdle_sampling_period_witness :
  SENSORS_READ_PERIOD
  < since_last_sample (steady_env 1023 6000 (float_of_int 5)) after_setup /\
  idle_steps (events (loopIdle (steady_env 1023 6000 (float_of_int 5))
                        after_setup))
  = [Step Refresh; KeyPoll;
     Step ReadTemperature; Step Refresh; KeyPoll;
     Step ReadHumidity; Step Refresh; KeyPoll;
     Step RequestTemperatures; Step Refresh; KeyPoll;
     Step GetTempC; Step Refresh; KeyPoll].
Proof.
  assert (H : SENSORS_READ_PERIOD
              < since_last_sample (steady_env 1023 6000 (float_of_int 5))
                  after_setup) by (vm_compute; reflexivity).
  split; [exact H|].
  destruct (loopIdle_sampling_period (steady_env 1023 6000 (float_of_int 5))
              after_setup) as [S _].
  exact (proj1 (S H)).
Defined.

(** ** Further properties of the keypad *)

(** X1. The voltage bands of the keypad: each key is returned exactly on
    its band of ADC values, and the key's number never decreases as the
    ADC value grows. *)
Theorem Key_of_analog_bands (a b : Z) :
  (Key_of_analog a = right <-> a < 60) /\
  (Key_of_analog a = up <-> 60 <= a < 200) /\
  (Key_of_analog a = down <-> 200 <= a < 400) /\
  (Key_of_analog a = left <-> 400 <= a < 600) /\
  (Key_of_analog a = select <-> 600 <= a < 800) /\
  (Key_of_analog a = none <-> 800 <= a) /\
  (a <= b -> Key_to_int (Key_of_analog a) <= Key_to_int (Key_of_analog b)).
Proof.
  unfold Key_of_analog.
  destruct (Z.ltb_spec a 60), (Z.ltb_spec a 200), (Z.ltb_spec a 400),
    (Z.ltb_spec a 600), (Z.ltb_spec a 800);
    try lia;
    (repeat split; try discriminate; try lia; intros;
     destruct (Z.ltb_spec b 60), (Z.ltb_spec b 200), (Z.ltb_spec b 400),
       (Z.ltb_spec b 600), (Z.ltb_spec b 800); cbn; lia).
Qed.

Lemma Key_of_analog_bands_witness :
  700 <= 1023 /\
  Key_to_int (Key_of_analog 700) <= Key_to_int (Key_of_analog 1023).
Proof.
  split; [lia|].
  apply (Key_of_analog_bands 700 1023). lia.
Defined.

(** On a key change the tick stores the time it has just read. *)
Lemma tick_time_on_change (env : Env) (parameter : option Param) (step : Z)
      (w : World) :
  key_read env w <> lastKey w ->
  lastTime (world (processKeys env parameter step w)) = key_change_clock env w.
Proof.
  intros H. rewrite (processKeys_edge env parameter step w H). cbv zeta.
  destruct (Key_eqb _ select).
  - destruct (Mode_eqb _ setHighHumid); reflexivity.
  - destruct (Mode_eqb _ idle); [reflexivity|].
    destruct parameter as [p|]; [|reflexivity].
    destruct (Key_eqb _ up); [reflexivity|].
    destruct (Key_eqb _ down); reflexivity.
Qed.

(** X2. After every tick the remembered key is the key just read, and the
    remembered time moves (to the time read on that tick) exactly when the
    key changed. *)
Theorem processKeys_remembers_key (env : Env) (parameter : option Param)
        (step : Z) (w : World) :
  lastKey (world (processKeys env parameter step w)) = key_read env w /\
  (key_read env w = lastKey w ->
   lastTime (world (processKeys env parameter step w)) = lastTime w) /\
  (key_read env w <> lastKey w ->
   lastTime (world (processKeys env parameter step w)) = key_change_clock env w).
Proof.
  destruct (Key_eq_dec (key_read env w) (lastKey w)) as [H|H].
  - rewrite (processKeys_held env parameter step w H). cbv zeta.
    destruct (negb _ && _ && _);
      (split; [now rewrite H|split; [reflexivity|intros N; contradiction]]).
  - rewrite (processKeys_edge env parameter step w H). cbv zeta.
    destruct (Key_eqb _ select).
    + destruct (Mode_eqb _ setHighHumid);
        (split; [reflexivity|split; [intros N; contradiction|reflexivity]]).
    + destruct (Mode_eqb _ idle);
        [split; [reflexivity|split; [intros N; contradiction|reflexivity]]|].
      destruct parameter as [p|];
        [|split; [reflexivity|split; [intros N; contradiction|reflexivity]]].
      destruct (Key_eqb _ up);
        [split; [reflexivity|split; [intros N; contradiction|reflexivity]]|].
      destruct (Key_eqb _ down);
        (split; [reflexivity|split; [intros N; contradiction|reflexivity]]).
Qed.

Lemma processKeys_remembers_key_witness :
  key_read (steady_env 100 2000 (float_of_int 5)) (keypad_world idle none 1000)
  <> lastKey (keypad_world idle none 1000) /\
  lastTime (world (processKeys (steady_env 100 2000 (float_of_int 5)) None 0
                     (keypad_world idle none 1000))) = 2000.
Proof.
  assert (H : key_read (steady_env 100 2000 (float_of_int 5))
                       (keypad_world idle none 1000)
              <> lastKey (keypad_world idle none 1000)) by (cbv; discriminate).
  split; [exact H|].
  destruct (processKeys_remembers_key (steady_env 100 2000 (float_of_int 5))
              None 0 (keypad_world idle none 1000)) as (_ & _ & E).
  exact (E H).
Defined.

(** X3. The mode changes on a tick only through a key change to Select or
    through the idle-timeout on a held key. *)
Theorem processKeys_mode_change (env : Env) (parameter : option Param)
        (step : Z) (w : World) :
  mode (state (world (processKeys env parameter step w))) <> mode (state w) ->
  (key_read env w <> lastKey w /\ key_read env w = select) \/
  (key_read env w = lastKey w /\ idle_timeout_due env w).
Proof.
  intros C.
  destruct (Key_eq_dec (key_read env w) (lastKey w)) as [H|H].
  - right. split; [exact H|].
    rewrite (processKeys_held env parameter step w H) in C. cbv zeta in C.
    destruct (negb (Mode_eqb (mode (state w)) idle) && (0 <? lastTime w)
              && (KEY_TIMEOUT <? long_sub (held_key_clock env w) (lastTime w)))
      eqn:E.
    + now apply idle_timeout_due_iff.
    + contradiction C. reflexivity.
  - left. split; [exact H|].
    rewrite (processKeys_edge env parameter step w H) in C. cbv zeta in C.
    destruct (Key_eqb (key_read env w) select) eqn:K;
      [now apply Key_eqb_eq|exfalso].
    destruct (Mode_eqb _ idle); [contradiction C; reflexivity|].
    destruct parameter as [p|]; [|contradiction C; reflexivity].
    destruct (Key_eqb _ up); [contradiction C; reflexivity|].
    destruct (Key_eqb _ down); contradiction C; reflexivity.
Qed.

Lemma processKeys_mode_change_witness :
  mode (state (world (processKeys (steady_env 700 2000 (float_of_int 5)) None 0
                        (keypad_world idle none 1000))))
  <> mode (state (keypad_world idle none 1000)) /\
  key_read (steady_env 700 2000 (float_of_int 5)) (keypad_world idle none 1000)
  = select.
Proof.
  assert (C : mode (state (world (processKeys (steady_env 700 2000 (float_of_int 5))
                                    None 0 (keypad_world idle none 1000))))
              <> mode (state (keypad_world idle none 1000)))
    by (vm_compute; discriminate).
  split; [exact C|].
  destruct (processKeys_mode_change (steady_env 700 2000 (float_of_int 5))
              None 0 (keypad_world idle none 1000) C) as [[_ K]|[K _]].
  - exact K.
  - reflexivity.
Defined.

(** X4. A threshold changes on a tick only when the key changes to Up or
    Down, in a mode other than [idle], with a target threshold; and then
    only the target changes. *)
Theorem processKeys_config_change (env : Env) (parameter : option Param)
        (step : Z) (w : World) :
  config (world (processKeys env parameter step w)) <> config w ->
  key_read env w <> lastKey w /\
  mode (state w) <> idle /\
  (key_read env w = up \/ key_read env w = down) /\
  exists p : Param,
    parameter = Some p /\
    forall q : Param,
      q <> p ->
      deref q (config (world (processKeys env parameter step w)))
      = deref q (config w).
Proof.
  intros C.
  destruct (Key_eq_dec (key_read env w) (lastKey w)) as [H|H].
  - exfalso. rewrite (processKeys_held env parameter step w H) in C.
    cbv zeta in C. destruct (negb _ && _ && _); contradiction C; reflexivity.
  - split; [exact H|].
    rewrite (processKeys_edge env parameter step w H) in C |- *.
    cbv zeta in C |- *.
    destruct (Key_eqb (key_read env w) select).
    { exfalso. destruct (Mode_eqb _ setHighHumid); contradiction C; reflexivity. }
    destruct (Mode_eqb (mode (state w)) idle) eqn:M;
      [exfalso; contradiction C; reflexivity|].
    apply Mode_eqb_neq in M. split; [exact M|].
    destruct parameter as [p|]; [|exfalso; contradiction C; reflexivity].
    destruct (Key_eqb (key_read env w) up) eqn:U.
    { apply Key_eqb_eq in U. split; [left; exact U|].
      exists p. split; [reflexivity|]. intros q Q.
      cbn [world with_config config set_lastTime set_lastKey next_io].
      now apply deref_assign_other. }
    destruct (Key_eqb (key_read env w) down) eqn:D.
    { apply Key_eqb_eq in D. split; [right; exact D|].
      exists p. split; [reflexivity|]. intros q Q.
      cbn [world with_config config set_lastTime set_lastKey next_io].
      now apply deref_assign_other. }
    exfalso. contradiction C. reflexivity.
Qed.

Lemma processKeys_config_change_witness :
  config (world (processKeys (steady_env 300 2000 (float_of_int 5))
                   (Some p_highTemp) 1 (keypad_world setHighTemp none 1000)))
  <> config (keypad_world setHighTemp none 1000) /\
  mode (state (keypad_world setHighTemp none 1000)) <> idle.
Proof.
  assert (C : config (world (processKeys (steady_env 300 2000 (float_of_int 5))
                               (Some p_highTemp) 1
                               (keypad_world setHighTemp none 1000)))
              <> config (keypad_world setHighTemp none 1000))
    by (vm_compute; discriminate).
  split; [exact C|].
  exact (proj1 (proj2 (processKeys_config_change
                         (steady_env 300 2000 (float_of_int 5))
                         (Some p_highTemp) 1
                         (keypad_world setHighTemp none 1000) C))).
Defined.

(** X5. [writeConfig] is called at most once per tick, only on a tick that
    leaves an edit mode for [idle], and what is saved are the thresholds as
    they stand (the tick itself does not edit them). *)
Theorem processKeys_save (env : Env) (parameter : option Param)
        (step : Z) (w : World) :
  (count_saves (events (processKeys env parameter step w)) <= 1)%nat /\
  forall c : Config,
    In (EvWriteConfig c) (events (processKeys env parameter step w)) ->
    c = config w /\
    config (world (processKeys env parameter step w)) = config w /\
    mode (state w) <> idle /\
    mode (state (world (processKeys env parameter step w))) = idle.
Proof.
  assert (S1 : forall c e1 e2 e3,
             In (EvWriteConfig c)
                ([EvAnalogRead e1; EvMillis e2; EvMillis e3]
                   ++ [EvWriteConfig (config w)]) -> c = config w).
  { intros c e1 e2 e3 [F|[F|[F|[F|[]]]]]; try discriminate F. now inversion F. }
  assert (S2 : forall c e1 e2,
             In (EvWriteConfig c)
                ([EvAnalogRead e1; EvMillis e2] ++ [EvWriteConfig (config w)]) ->
             c = config w).
  { intros c e1 e2 [F|[F|[F|[]]]]; try discriminate F. now inversion F. }
  assert (N1 : forall c e1 e2 e3,
             ~ In (EvWriteConfig c) [EvAnalogRead e1; EvMillis e2; EvMillis e3]).
  { intros c e1 e2 e3 [F|[F|[F|[]]]]; discriminate F. }
  assert (N2 : forall c e1 e2,
             ~ In (EvWriteConfig c) [EvAnalogRead e1; EvMillis e2]).
  { intros c e1 e2 [F|[F|[]]]; discriminate F. }
  destruct (Key_eq_dec (key_read env w) (lastKey w)) as [H|H].
  - rewrite (processKeys_held env parameter step w H). cbv zeta.
    destruct (negb (Mode_eqb (mode (state w)) idle) && (0 <? lastTime w)
              && (KEY_TIMEOUT <? long_sub (held_key_clock env w) (lastTime w)))
      eqn:E.
    + apply idle_timeout_due_iff in E. destruct E as (M & _).
      split; [cbn; lia|]. intros c I. apply S1 in I.
      repeat split; try assumption; reflexivity.
    + split; [cbn; lia|]. intros c I. cbn [events] in I.
      apply N1 in I. contradiction.
  - rewrite (processKeys_edge env parameter step w H). cbv zeta.
    destruct (Key_eqb (key_read env w) select).
    + destruct (Mode_eqb (mode (state w)) setHighHumid) eqn:M.
      * apply Mode_eqb_eq in M. split; [cbn; lia|]. intros c I. apply S2 in I.
        repeat split; try assumption; try reflexivity.
        rewrite M. discriminate.
      * split; [cbn; lia|]. intros c I. cbn [events] in I.
        apply N2 in I. contradiction.
    + destruct (Mode_eqb _ idle);
        [split; [cbn; lia|]; intros c I; cbn [events] in I;
         apply N2 in I; contradiction|].
      destruct parameter as [p|];
        [|split; [cbn; lia|]; intros c I; cbn [events] in I;
          apply N2 in I; contradiction].
      destruct (Key_eqb _ up);
        [split; [cbn; lia|]; intros c I; cbn [events] in I;
         apply N2 in I; contradiction|].
      destruct (Key_eqb _ down);
        (split; [cbn; lia|]; intros c I; cbn [events] in I;
         apply N2 in I; contradiction).
Qed.

Lemma processKeys_save_witness :
  In (EvWriteConfig default_config)
     (events (processKeys (steady_env 700 2000 (float_of_int 5))
                (Some p_highHumid) 5 (keypad_world setHighHumid none 1000))) /\
  mode (state (world (processKeys (steady_env 700 2000 (float_of_int 5))
                        (Some p_highHumid) 5
                        (keypad_world setHighHumid none 1000)))) = idle.
Proof.
  assert (I : In (EvWriteConfig default_config)
                 (events (processKeys (steady_env 700 2000 (float_of_int 5))
                            (Some p_highHumid) 5
                            (keypad_world setHighHumid none 1000)))).
  { vm_compute. right. right. left. reflexivity. }
  split; [exact I|].
  destruct (processKeys_save (steady_env 700 2000 (float_of_int 5))
              (Some p_highHumid) 5 (keypad_world setHighHumid none 1000))
    as [_ S].
  exact (proj2 (proj2 (proj2 (S default_config I)))).
Defined.

Lemma assign_assign (p : Param) (u v : Z) (c : Config) :
  assign p v (assign p u c) = assign p v c.
Proof. destruct p; reflexivity. Qed.

Lemma assign_deref (p : Param) (c : Config) : assign p (deref p c) c = c.
Proof. destruct p, c; reflexivity. Qed.

(** X6. Round trip of an edit: in an edit mode, a key change to Up followed
    on the next tick by a key change to Down, same target and step, leaves
    every threshold as it was, provided the target held a byte value
    (wrap-around included: 255 + 5 gives 4, and 4 - 5 gives 255 back). *)
Theorem processKeys_up_then_down (env : Env) (p : Param) (step : Z) (w : World) :
  0 <= deref p (config w) < 256 ->
  mode (state w) <> idle ->
  lastKey w <> up ->
  key_read env w = up ->
  key_read env (world (processKeys env (Some p) step w)) = down ->
  config (world (ticks env [(Some p, step); (Some p, step)] w)) = config w /\
  mode (state (world (ticks env [(Some p, step); (Some p, step)] w)))
  = mode (state w).
Proof.
  intros R M L U D.
  destruct (ticks_cons env (Some p) step [(Some p, step)] w) as [E _].
  rewrite E. clear E.
  destruct (ticks_cons env (Some p) step []
              (world (processKeys env (Some p) step w))) as [E _].
  rewrite E. clear E. cbn [ticks ret world].
  assert (E1 : key_read env w <> lastKey w) by (rewrite U; congruence).
  pose proof (processKeys_edge env (Some p) step w E1) as S1. cbv zeta in S1.
  rewrite U in S1. apply Mode_eqb_neq in M. rewrite M in S1.
  cbn [Key_eqb Key_to_int Z.eqb Pos.eqb] in S1.
  rewrite S1 in D |- *. cbn [world] in D |- *.
  set (w1 := with_config _ _) in *.
  assert (E2 : key_read env w1 <> lastKey w1) by (rewrite D; discriminate).
  rewrite (processKeys_edge env (Some p) step w1 E2). cbv zeta.
  rewrite D. cbn [Key_eqb Key_to_int Z.eqb Pos.eqb].
  change (mode (state w1)) with (mode (state w)). rewrite M.
  cbn [world with_config config state set_lastTime set_lastKey next_io].
  subst w1. cbn [with_config config set_lastTime set_lastKey next_io state].
  rewrite deref_assign_same, assign_assign. unfold to_byte.
  rewrite Zminus_mod_idemp_l.
  replace (deref p (config w) + step - step) with (deref p (config w)) by lia.
  rewrite (Z.mod_small _ _ R), assign_deref. split; reflexivity.
Qed.

Lemma processKeys_up_then_down_witness :
  0 <= deref p_highHumid (mkConfig 4 6 60 255) < 256 /\
  config (world (ticks up_then_down_env
                   [(Some p_highHumid, 5); (Some p_highHumid, 5)]
                   (mkWorld (mkState setHighHumid (float_of_int 5)
                               (float_of_int 50) (float_of_int 5) false false)
                            (mkConfig 4 6 60 255) none 1000 0 0%nat)))
  = mkConfig 4 6 60 255.
Proof.
  split; [cbn; lia|].
  apply (processKeys_up_then_down up_then_down_env p_highHumid 5
           (mkWorld (mkState setHighHumid (float_of_int 5)
                       (float_of_int 50) (float_of_int 5) false false)
                    (mkConfig 4 6 60 255) none 1000 0 0%nat)).
  - cbn; lia.
  - cbn; discriminate.
  - cbn; discriminate.
  - reflexivity.
  - vm_compute. reflexivity.
Defined.

(** X8. The mode cycle has period five from any mode: a run of ticks with
    five Select edges and no idle-timeout firing ends in the mode it started
    in, with exactly one save. *)
Theorem select_cycle_period (env : Env) (args : list (option Param * Z))
        (w : World) :
  timeout_free env args w ->
  select_edges env args w = 5%nat ->
  mode (state (world (ticks env args w))) = mode (state w) /\
  count_saves (events (ticks env args w)) = 1%nat.
Proof.
  intros T N.
  pose proof (ticks_select_steps env args w T) as S. rewrite N in S.
  destruct (mode (state w)); cbn in S; now inversion S.
Qed.

Lemma select_cycle_period_witness :
  select_edges tapping_env five_taps (keypad_world setHighTemp none 0) = 5%nat /\
  mode (state (world (ticks tapping_env five_taps
                        (keypad_world setHighTemp none 0)))) = setHighTemp.
Proof.
  assert (N : select_edges tapping_env five_taps
                (keypad_world setHighTemp none 0) = 5%nat)
    by (vm_compute; reflexivity).
  assert (T : timeout_free tapping_env five_taps (keypad_world setHighTemp none 0)).
  { cbn [timeout_free five_taps].
    repeat (split; [intros [A _]; vm_compute in A; discriminate A|]).
    exact I. }
  split; [exact N|].
  exact (proj1 (select_cycle_period tapping_env five_taps
                  (keypad_world setHighTemp none 0) T N)).
Defined.

(** ** Further properties of the climate decision *)

Lemma World_ext (a b : World) :
  state a = state b -> config a = config b -> lastKey a = lastKey b ->
  lastTime a = lastTime b -> lastReadTime a = lastReadTime b -> io a = io b ->
  a = b.
Proof. destruct a, b; cbn; intros; subst; reflexivity. Qed.

(** X9. The climate evaluation is idempotent: evaluating again on the same
    readings and thresholds changes nothing, so an actuator never flips
    between two evaluations of one sample. *)
Theorem processClimate_idempotent (w : World) :
  world (processClimate (world (processClimate w))) = world (processClimate w).
Proof.
  pose proof (processClimate_outside_state w) as (C & K & T & R & N & _).
  pose proof (processClimate_outside_state (world (processClimate w)))
    as (C' & K' & T' & R' & N' & _).
  apply World_ext; try congruence.
  pose proof (processClimate_state (world (processClimate w))) as S'.
  cbv zeta in S'. rewrite S'. clear S'. rewrite C.
  pose proof (processClimate_state w) as S. cbv zeta in S. rewrite S.
  unfold valid_readings.
  destruct (isValidTemp (temp (state w)) && isValidHumid (humid (state w))
            && isValidTemp (outdoorTemp (state w))) eqn:V;
    cbn [temp humid outdoorTemp mode tempOn humidOn]; rewrite V;
    [|reflexivity].
  destruct (SFleb (temp (state w)) (float_of_int (lowTemp (config w)))),
    (SFleb (float_of_int (highTemp (config w))) (temp (state w))),
    (SFltb (outdoorTemp (state w)) (temp (state w))),
    (SFleb (humid (state w)) (float_of_int (lowHumid (config w)))),
    (SFleb (float_of_int (highHumid (config w))) (humid (state w)));
    reflexivity.
Qed.

(** ** Further properties of the main loop *)

Lemma relay_writes_app (xs ys : list Event) :
  relay_writes (xs ++ ys) = relay_writes xs ++ relay_writes ys.
Proof.
  induction xs as [|e xs IH]; [reflexivity|].
  destruct e; cbn [app relay_writes]; rewrite IH; reflexivity.
Qed.

Lemma setup_screens_app (xs ys : list Event) :
  setup_screens (xs ++ ys) = setup_screens xs ++ setup_screens ys.
Proof.
  induction xs as [|e xs IH]; [reflexivity|].
  destruct e; cbn [app setup_screens]; rewrite IH; reflexivity.
Qed.

Lemma config_with_state (f : State -> State) (w : World) :
  config (with_state f w) = config w.
Proof. reflexivity. Qed.

Lemma config_next_io (w : World) : config (next_io w) = config w.
Proof. reflexivity. Qed.

Lemma config_set_lastReadTime (t : Z) (w : World) :
  config (set_lastReadTime t w) = config w.
Proof. reflexivity. Qed.

Lemma flags_set_temp (x : float) (s : State) :
  tempOn (set_temp x s) = tempOn s /\ humidOn (set_temp x s) = humidOn s.
Proof. split; reflexivity. Qed.

Lemma flags_set_humid (x : float) (s : State) :
  tempOn (set_humid x s) = tempOn s /\ humidOn (set_humid x s) = humidOn s.
Proof. split; reflexivity. Qed.

Lemma flags_set_outdoorTemp (x : float) (s : State) :
  tempOn (set_outdoorTemp x s) = tempOn s /\
  humidOn (set_outdoorTemp x s) = humidOn s.
Proof. split; reflexivity. Qed.

(** The input machine touches neither actuator flag and calls neither the
    relays nor the edit screen. *)
Lemma processKeys_actuator_frame (env : Env) (parameter : option Param)
      (step : Z) (w : World) :
  tempOn (state (world (processKeys env parameter step w))) = tempOn (state w) /\
  humidOn (state (world (processKeys env parameter step w))) = humidOn (state w) /\
  relay_writes (events (processKeys env parameter step w)) = [] /\
  setup_screens (events (processKeys env parameter step w)) = [].
Proof.
  destruct (Key_eq_dec (key_read env w) (lastKey w)) as [H|H].
  - rewrite (processKeys_held env parameter step w H). cbv zeta.
    destruct (negb _ && _ && _); repeat split; reflexivity.
  - rewrite (processKeys_edge env parameter step w H). cbv zeta.
    destruct (Key_eqb _ select).
    + destruct (Mode_eqb _ setHighHumid); repeat split; reflexivity.
    + destruct (Mode_eqb _ idle); [repeat split; reflexivity|].
      destruct parameter as [p|]; [|repeat split; reflexivity].
      destruct (Key_eqb _ up); [repeat split; reflexivity|].
      destruct (Key_eqb _ down); repeat split; reflexivity.
Qed.

(** Without a target the input machine edits nothing, in any mode. *)
Lemma processKeys_no_target (env : Env) (step : Z) (w : World) :
  config (world (processKeys env None step w)) = config w.
Proof.
  destruct (Key_eq_dec (key_read env w) (lastKey w)) as [H|H].
  - rewrite (processKeys_held env None step w H). cbv zeta.
    destruct (negb _ && _ && _); reflexivity.
  - rewrite (processKeys_edge env None step w H). cbv zeta.
    destruct (Key_eqb _ select).
    + destruct (Mode_eqb _ setHighHumid); reflexivity.
    + destruct (Mode_eqb _ idle); reflexivity.
Qed.

Lemma processIU_config (env : Env) (w : World) :
  config (world (processIU env w)) = config w.
Proof.
  change (world (processIU env w)) with (world (processKeys env None 0 w)).
  apply processKeys_no_target.
Qed.

Lemma processIU_tempOn (env : Env) (w : World) :
  tempOn (state (world (processIU env w))) = tempOn (state w).
Proof.
  change (world (processIU env w)) with (world (processKeys env None 0 w)).
  apply processKeys_actuator_frame.
Qed.

Lemma processIU_humidOn (env : Env) (w : World) :
  humidOn (state (world (processIU env w))) = humidOn (state w).
Proof.
  change (world (processIU env w)) with (world (processKeys env None 0 w)).
  apply processKeys_actuator_frame.
Qed.

Lemma processIU_relay_writes (env : Env) (w : World) :
  relay_writes (events (processIU env w)) = [].
Proof.
  change (events (processIU env w))
    with ([EvDisplayIdle (state w)] ++ events (processKeys env None 0 w)).
  rewrite relay_writes_app.
  now rewrite (proj1 (proj2 (proj2 (processKeys_actuator_frame env None 0 w)))).
Qed.

#[local] Hint Rewrite config_with_state config_next_io config_set_lastReadTime
  (fun x s => proj1 (flags_set_temp x s))
  (fun x s => proj2 (flags_set_temp x s))
  (fun x s => proj1 (flags_set_humid x s))
  (fun x s => proj2 (flags_set_humid x s))
  (fun x s => proj1 (flags_set_outdoorTemp x s))
  (fun x s => proj2 (flags_set_outdoorTemp x s))
  processIU_config processIU_tempOn processIU_humidOn processIU_relay_writes
  relay_writes_app : run.

(** Sampling changes neither a threshold nor an actuator flag and drives
    no relay. *)
Lemma processSensors_frame (env : Env) (w : World) :
  config (world (processSensors env w)) = config w /\
  tempOn (state (world (processSensors env w))) = tempOn (state w) /\
  humidOn (state (world (processSensors env w))) = humidOn (state w) /\
  relay_writes (events (processSensors env w)) = [].
Proof.
  destruct (Z.lt_ge_cases SENSORS_READ_PERIOD
              (long_sub (clock_read env (io w)) (lastReadTime w))) as [H|H].
  - apply Z.ltb_lt in H. unfold clock_read in H.
    repeat split; step_sensors; rewrite H; step_sensors; reflexivity.
  - rewrite (processSensors_skip env w H). repeat split; reflexivity.
Qed.

Lemma processRelays_relay_writes (w : World) :
  relay_writes (events (processRelays w))
  = [(RELAY_TEMP_PIN, boolToDigital (tempOn (state w)));
     (RELAY_HUMID_PIN, boolToDigital (humidOn (state w)))].
Proof. unfold processRelays, digitalWrite. step_run. reflexivity. Qed.



(** The thresholds across the whole idle loop. *)
Lemma idle_loop_config (env : Env) (w : World) :
  config (world (loopIdle env w)) = config w.
Proof.
  destruct (loopIdle_parts env w) as (W & _ & _). rewrite W.
  rewrite (proj1 (processClimate_outside_state _)).
  rewrite (proj1 (processSensors_frame env _)).
  apply processIU_config.
Qed.

(** X11. The idle loop never edits a threshold: whatever keys are read
    during the iteration (Select included, which moves the mode), the
    thresholds after [loopIdle] are those before. *)
Theorem loopIdle_keeps_config (env : Env) (w : World) :
  config (world (processIU env w)) = config w /\
  config (world (loopIdle env w)) = config w.
Proof.
  split.
  - change (world (processIU env w)) with (world (processKeys env None 0 w)).
    apply processKeys_no_target.
  - destruct (loopIdle_parts env w) as (W & _ & _). rewrite W.
    destruct (processClimate_outside_state
                (world (processSensors env (before_sensors env w))))
      as (C & _).
    destruct (processSensors_frame env (before_sensors env w)) as (S & _).
    rewrite C, S. unfold before_sensors. apply processIU_config.
Qed.

(** One iteration of [loop] in an edit mode: the input machine with that
    mode's threshold and step, then one edit-screen refresh showing the
    threshold as it now stands. *)
Lemma loop_edit_run (env : Env) (w : World) (p : Param) (step : Z) :
  edit_target (mode (state w)) = Some (p, step) ->
  world (loop env w) = world (processKeys env (Some p) step w) /\
  exists name units : string,
    events (loop env w)
    = events (processKeys env (Some p) step w)
      ++ [EvDisplaySetup name units
            (deref p (config (world (processKeys env (Some p) step w))))].
Proof.
  intros H. split; [now apply loop_edit_mode|].
  unfold loop, edit_target in *. rewrite events_bind, run_gets.
  cbn [value world events app].
  destruct (mode (state w)); inversion H; subst;
    unfold loopSetup, displaySetup; step_run; do 2 eexists; reflexivity.
Qed.

(** X10. While editing, the climate side is frozen: an iteration of [loop]
    in a mode other than [idle] changes no reading, no actuator flag and
    not the sample time, reads no sensor, refreshes no idle screen and
    drives no relay. *)
Theorem loop_edit_mode_freezes_climate (env : Env) (w : World) :
  mode (state w) <> idle ->
  temp (state (world (loop env w))) = temp (state w) /\
  humid (state (world (loop env w))) = humid (state w) /\
  outdoorTemp (state (world (loop env w))) = outdoorTemp (state w) /\
  tempOn (state (world (loop env w))) = tempOn (state w) /\
  humidOn (state (world (loop env w))) = humidOn (state w) /\
  lastReadTime (world (loop env w)) = lastReadTime w /\
  sample_steps (events (loop env w)) = [] /\
  relay_writes (events (loop env w)) = [].
Proof.
  intros M.
  assert (T : exists p step, edit_target (mode (state w)) = Some (p, step)).
  { destruct (mode (state w)); [contradiction M; reflexivity| | | |];
      cbn; eauto. }
  destruct T as (p & step & T).
  destruct (loop_edit_run env w p step T) as (W & name & units & E).
  rewrite W, E, sample_steps_app, relay_writes_app.
  destruct (processKeys_sampling_frame env (Some p) step w)
    as (A1 & A2 & A3 & A4 & A5).
  destruct (processKeys_actuator_frame env (Some p) step w)
    as (B1 & B2 & B3 & _).
  rewrite A1, A2, A3, A4, A5, B1, B2, B3. repeat split; reflexivity.
Qed.

Lemma loop_edit_mode_freezes_climate_witness :
  mode (state (keypad_world setLowHumid none 1000)) <> idle /\
  relay_writes (events (loop (steady_env 100 2000 (float_of_int 5))
                          (keypad_world setLowHumid none 1000))) = [].
Proof.
  assert (M : mode (state (keypad_world setLowHumid none 1000)) <> idle)
    by (cbn; discriminate).
  split; [exact M|].
  apply (loop_edit_mode_freezes_climate (steady_env 100 2000 (float_of_int 5))
           (keypad_world setLowHumid none 1000) M).
Defined.

(** X14. In an edit mode each iteration of [loop] refreshes the edit screen
    exactly once, after the key has been processed, so the value shown is
    the threshold as just edited. *)
Theorem loop_edit_screen (env : Env) (w : World) (p : Param) (step : Z) :
  edit_target (mode (state w)) = Some (p, step) ->
  setup_screens (events (loop env w)) = [deref p (config (world (loop env w)))].
Proof.
  intros T.
  destruct (loop_edit_run env w p step T) as (W & name & units & E).
  rewrite W, E, setup_screens_app.
  rewrite (proj2 (proj2 (proj2 (processKeys_actuator_frame env (Some p) step w)))).
  reflexivity.
Qed.

(** In [setLowHumid] at 60, pressing Up shows 65. *)
Lemma loop_edit_screen_witness :
  edit_target (mode (state (keypad_world setLowHumid none 1000)))
  = Some (p_lowHumid, 5) /\
  setup_screens (events (loop (steady_env 100 2000 (float_of_int 5))
                           (keypad_world setLowHumid none 1000))) = [65].
Proof.
  split; [reflexivity|].
  apply (loop_edit_screen (steady_env 100 2000 (float_of_int 5))
           (keypad_world setLowHumid none 1000) p_lowHumid 5).
  reflexivity.
Defined.

Lemma assign_in_range (p : Param) (v : Z) (c : Config) :
  config_in_range c -> config_in_range (assign p (to_byte v) c).
Proof.
  intros R q.
  assert (B : 0 <= to_byte v < 256) by (unfold to_byte; apply Z.mod_pos_bound; lia).
  pose proof (R p_lowTemp). pose proof (R p_highTemp).
  pose proof (R p_lowHumid). pose proof (R p_highHumid).
  destruct p, q; cbn in *; assumption.
Qed.

(** An edit never leaves the byte range, wrap-around included. *)
Lemma processKeys_in_range (env : Env) (parameter : option Param) (step : Z)
      (w : World) :
  config_in_range (config w) ->
  config_in_range (config (world (processKeys env parameter step w))).
Proof.
  intros R.
  destruct (Key_eq_dec (key_read env w) (lastKey w)) as [H|H].
  - rewrite (processKeys_held env parameter step w H). cbv zeta.
    destruct (negb _ && _ && _); exact R.
  - rewrite (processKeys_edge env parameter step w H). cbv zeta.
    destruct (Key_eqb _ select).
    + destruct (Mode_eqb _ setHighHumid); exact R.
    + destruct (Mode_eqb _ idle); [exact R|].
      destruct parameter as [p|]; [|exact R].
      destruct (Key_eqb _ up); [now apply assign_in_range|].
      destruct (Key_eqb _ down); [now apply assign_in_range|exact R].
Qed.

Lemma loop_in_range (env : Env) (w : World) :
  config_in_range (config w) -> config_in_range (config (world (loop env w))).
Proof.
  intros R. destruct (mode (state w)) eqn:M.
  - assert (E : world (loop env w) = world (loopIdle env w)).
    { unfold loop. rewrite world_bind, run_gets. cbn [value world].
      now rewrite M. }
    rewrite E, idle_loop_config. exact R.
  - rewrite (loop_edit_mode env w p_lowTemp 1) by now rewrite M.
    now apply processKeys_in_range.
  - rewrite (loop_edit_mode env w p_highTemp 1) by now rewrite M.
    now apply processKeys_in_range.
  - rewrite (loop_edit_mode env w p_lowHumid 5) by now rewrite M.
    now apply processKeys_in_range.
  - rewrite (loop_edit_mode env w p_highHumid 5) by now rewrite M.
    now apply processKeys_in_range.
Qed.

Lemma setup_config (w : World) : config (world (setup w)) = mkConfig 4 6 60 70.
Proof.
  unfold setup, restoreConfig, resetDefaultConfig. step_run.
  rewrite processRelays_world. reflexivity.
Qed.

(** X7. The thresholds stay byte values for ever: after [setup] and any
    number of [loop] iterations, under any keypad, clock and sensor input,
    each of the four thresholds is between 0 and 255; more generally [loop]
    keeps that range from any world that has it. *)
Theorem thresholds_stay_bytes (env : Env) (n : nat) (w : World) :
  config_in_range (config (world (loops env n (world (setup w))))) /\
  (config_in_range (config w) ->
   config_in_range (config (world (loops env n w)))).
Proof.
  assert (G : forall v, config_in_range (config v) ->
                        config_in_range (config (world (loops env n v)))).
  { induction n as [|n IH]; intros v R; [exact R|].
    cbn [loops]. rewrite world_bind. apply IH. now apply loop_in_range. }
  split; [|apply G].
  apply G. rewrite setup_config. intros p; destruct p; cbn; lia.
Qed.

(** Down pressed in [setLowTemp] at 0: the threshold wraps to 255. *)
Lemma thresholds_stay_bytes_witness :
  config_in_range (mkConfig 0 6 60 70) /\
  config_in_range
    (config (world (loops (steady_env 300 2000 (float_of_int 5)) 1
                      (mkWorld (mkState setLowTemp (float_of_int 5)
                                  (float_of_int 50) (float_of_int 5) false false)
                               (mkConfig 0 6 60 70) none 1000 0 0%nat)))).
Proof.
  assert (R : config_in_range (mkConfig 0 6 60 70))
    by (intros p; destruct p; cbn; lia).
  split; [exact R|].
  exact (proj2 (thresholds_stay_bytes (steady_env 300 2000 (float_of_int 5)) 1
                  (mkWorld (mkState setLowTemp (float_of_int 5)
                              (float_of_int 50) (float_of_int 5) false false)
                           (mkConfig 0 6 60 70) none 1000 0 0%nat)) R).
Defined.

(** X13. [setup] from any contents of the globals: the thresholds are the
    defaults 4, 6, 60, 70 (nothing is read back from the EEPROM), the mode
    is [idle], the relays are driven once with the flags as found and the
    flags are kept; from the zero-initialised globals of power-up both
    relay pins are written HIGH, relays off. *)
Theorem setup_defaults (w : World) :
  config (world (setup w)) = mkConfig 4 6 60 70 /\
  mode (state (world (setup w))) = idle /\
  tempOn (state (world (setup w))) = tempOn (state w) /\
  humidOn (state (world (setup w))) = humidOn (state w) /\
  relay_writes (events (setup w))
  = [(RELAY_TEMP_PIN, boolToDigital (tempOn (state w)));
     (RELAY_HUMID_PIN, boolToDigital (humidOn (state w)))] /\
  relay_writes (events (setup boot))
  = [(RELAY_TEMP_PIN, HIGH); (RELAY_HUMID_PIN, HIGH)] /\
  count_saves (events (setup w)) = 0%nat.
Proof.
  split; [apply setup_config|].
  unfold setup, restoreConfig, resetDefaultConfig.
  repeat split; step_run; rewrite ?processRelays_world,
    ?processRelays_relay_writes; reflexivity.
Qed.

(** X15. Uptime past 2^31 ms: a key change read at a [millis()] value of
    2^31 or more is stored as a negative [lastTime]; from then on, while the
    key is held, the idle-timeout guard [lastTime > 0] fails and the tick
    changes nothing and saves nothing, however long the key is held. *)
Theorem idle_timeout_disabled_by_negative_time (env : Env)
        (parameter : option Param) (step : Z) (w : World) :
  (key_read env w <> lastKey w ->
   2 ^ 31 <= to_ulong (clock env (S (io w))) ->
   lastTime (world (processKeys env parameter step w)) < 0) /\
  (key_read env w = lastKey w ->
   lastTime w <= 0 ->
   state (world (processKeys env parameter step w)) = state w /\
   config (world (processKeys env parameter step w)) = config w /\
   lastTime (world (processKeys env parameter step w)) = lastTime w /\
   count_saves (events (processKeys env parameter step w)) = 0%nat).
Proof.
  split.
  - intros H C.
    rewrite (tick_time_on_change env parameter step w H). unfold key_change_clock, clock_read, to_long.
    assert (B : 0 <= to_ulong (clock env (S (io w))) < 2 ^ 32)
      by (unfold to_ulong; apply Z.mod_pos_bound; lia).
    replace ((to_ulong (clock env (S (io w))) + 2 ^ 31) mod 2 ^ 32)
      with (to_ulong (clock env (S (io w))) + 2 ^ 31 - 2 ^ 32); [lia|].
    apply Z.mod_unique with (q := 1); lia.
  - intros H L. rewrite (processKeys_held env parameter step w H). cbv zeta.
    assert (G : (0 <? lastTime w) = false) by (apply Z.ltb_ge; exact L).
    rewrite G, andb_false_r. cbn [andb]. repeat split; reflexivity.
Qed.

(** A press of Select 40 days after power-up, then held. *)
Lemma idle_timeout_disabled_by_negative_time_witness :
  key_read (steady_env 700 3456000000 (float_of_int 5)) (keypad_world idle none 1000)
  <> lastKey (keypad_world idle none 1000) /\
  2 ^ 31 <= to_ulong (clock (steady_env 700 3456000000 (float_of_int 5)) 1%nat) /\
  lastTime (world (processKeys (steady_env 700 3456000000 (float_of_int 5))
                     None 0 (keypad_world idle none 1000))) < 0.
Proof.
  assert (H : key_read (steady_env 700 3456000000 (float_of_int 5))
                       (keypad_world idle none 1000)
              <> lastKey (keypad_world idle none 1000)) by (cbv; discriminate).
  assert (C : 2 ^ 31
              <= to_ulong (clock (steady_env 700 3456000000 (float_of_int 5)) 1%nat))
    by (vm_compute; discriminate).
  split; [exact H|]. split; [exact C|].
  exact (proj1 (idle_timeout_disabled_by_negative_time
                  (steady_env 700 3456000000 (float_of_int 5)) None 0
                  (keypad_world idle none 1000)) H C).
Defined.
